(** * K5MarauderBTC control interface

    A shallow embedding of [pi_control/control_interface.py]: the serial
    link manager ([connect_serial], [send_command]), the status poller
    ([update_status]), the HTTP handlers ([api_command], [api_mode]) and
    [main], followed by the properties of the specification that concern
    them.

    The program is glue around three libraries: pyserial, [json] and Flask.
    The glue is modelled as it is written, in a state-and-exception monad
    over the module's globals.  What the libraries compute is either
    modelled from their documented behaviour ([dict.update], truthiness,
    [str.encode]) or taken as an interface ([SerialPort], [Runtime]). *)

From Stdlib Require Import ZArith List String Ascii Strings.Byte Bool Lia.
From Stdlib Require Import QArith DecimalString.
From Stdlib Require Import Floats.SpecFloat.
Import ListNotations.

Local Close Scope Q_scope.
Local Open Scope string_scope.
Local Open Scope list_scope.
Local Set Warnings "-register-all".

(** String concatenation, as done by f-strings. *)
Infix "^^" := String.append (at level 60, right associativity).

(* ================================================================= *)
(** ** Python values *)

(** A Python [str] is represented by its code points, each in the
    byte pattern of UTF-8; a surrogate (U+D800 to U+DFFF), which a [str]
    may hold and UTF-8 excludes, takes the three bytes that pattern gives
    it.  The bytes of a text without surrogates are then its UTF-8
    encoding. *)
Definition encode (s : string) : list byte := list_byte_of_string s.

(** Hashable scalars, the values that can be dictionary keys. *)
Inductive key : Type :=
| KNone
| KBool (b : bool)
| KInt (z : Z)
| KFloat (f : spec_float)
| KStr (s : string).

(** The values [json.loads] builds, which are also the values held by
    [device_status] and carried by a request body.  A dictionary keeps its
    insertion order, so it is an association list; its keys are pairwise
    different for [key_eqb]. *)
Inductive value : Type :=
| VNone
| VBool (b : bool)
| VInt (z : Z)
| VFloat (f : spec_float)
| VStr (s : string)
| VList (l : list value)
| VDict (d : list (key * value)).

Definition dict : Type := list (key * value).

Definition key_value (k : key) : value :=
  match k with
  | KNone => VNone
  | KBool b => VBool b
  | KInt z => VInt z
  | KFloat f => VFloat f
  | KStr s => VStr s
  end.

(** [hash(v)]: lists and dictionaries are unhashable. *)
Definition as_key (v : value) : option key :=
  match v with
  | VNone => Some KNone
  | VBool b => Some (KBool b)
  | VInt z => Some (KInt z)
  | VFloat f => Some (KFloat f)
  | VStr s => Some (KStr s)
  | VList _ | VDict _ => None
  end.

(** The integer a float is equal to, when there is one.  Python compares
    an [int] and a [float] exactly. *)
Definition float_as_Z (f : spec_float) : option Z :=
  match f with
  | S754_zero _ => Some 0%Z
  | S754_finite s m e =>
      let sign := fun z : Z => if s then Z.opp z else z in
      match e with
      | Zneg p =>
          if Z.eqb (Z.modulo (Zpos m) (Z.pow 2 (Zpos p))) 0
          then Some (sign (Z.div (Zpos m) (Z.pow 2 (Zpos p))))
          else None
      | _ => Some (sign (Z.mul (Zpos m) (Z.pow 2 e)))
      end
  | S754_infinity _ | S754_nan => None
  end.

Definition float_eqb (f g : spec_float) : bool :=
  match f, g with
  | S754_nan, S754_nan => true   (* [json] hands out one NaN object *)
  | _, _ => SFeqb f g
  end.

(** Equality of dictionary keys: [True == 1 == 1.0], [False == 0 == 0.0],
    a string is equal to strings only, [None] to itself only. *)
Definition key_eqb (a b : key) : bool :=
  match a, b with
  | KNone, KNone => true
  | KStr s, KStr t => String.eqb s t
  | KBool x, KBool y => Bool.eqb x y
  | KBool x, KInt z | KInt z, KBool x => Z.eqb (Z.b2z x) z
  | KInt x, KInt y => Z.eqb x y
  | KBool x, KFloat f | KFloat f, KBool x =>
      match float_as_Z f with Some z => Z.eqb (Z.b2z x) z | None => false end
  | KInt x, KFloat f | KFloat f, KInt x =>
      match float_as_Z f with Some z => Z.eqb x z | None => false end
  | KFloat f, KFloat g => float_eqb f g
  | _, _ => false
  end.

(** [d.get(k)], with [None] standing for "absent" at the Rocq level. *)
Fixpoint dict_get (d : dict) (k : key) : option value :=
  match d with
  | [] => None
  | (k', v) :: rest => if key_eqb k' k then Some v else dict_get rest k
  end.

(** [d[k] = v]: an existing entry keeps its place and its key object, a
    new one goes last. *)
Fixpoint dict_setitem (d : dict) (k : key) (v : value) : dict :=
  match d with
  | [] => [(k, v)]
  | (k', v') :: rest =>
      if key_eqb k' k then (k', v) :: rest
      else (k', v') :: dict_setitem rest k v
  end.

Definition dict_keys (d : dict) : list key := map fst d.

(** [PyDict_Merge(d, other, override=1)]: every entry of [other], in its
    order, is stored into [d]. *)
Definition dict_merge (d other : dict) : dict :=
  fold_left (fun acc kv => dict_setitem acc (fst kv) (snd kv)) other d.

(** Truth value testing, as used by [not command]. *)
Definition truthy (v : value) : bool :=
  match v with
  | VNone => false
  | VBool b => b
  | VInt z => negb (Z.eqb z 0)
  | VFloat (S754_zero _) => false
  | VFloat _ => true
  | VStr s => negb (String.eqb s EmptyString)
  | VList l => match l with [] => false | _ => true end
  | VDict d => match d with [] => false | _ => true end
  end.




(** [list(s)] for a string: its characters, one string per code point.  A
    code point starts at every byte that is not a continuation byte
    ([10xxxxxx]). *)
Definition is_continuation (c : ascii) : bool :=
  let n := nat_of_ascii c in Nat.leb 128 n && Nat.ltb n 192.

Fixpoint utf8_split (s : string) : string * list string :=
  match s with
  | EmptyString => (EmptyString, [])
  | String c rest =>
      let '(pending, chars) := utf8_split rest in
      if is_continuation c then (String c pending, chars)
      else (EmptyString, String c pending :: chars)
  end.

Definition utf8_chars (s : string) : list string :=
  let '(pending, chars) := utf8_split s in
  match pending with
  | EmptyString => chars
  | _ => pending :: chars
  end.

Definition type_name (v : value) : string :=
  match v with
  | VNone => "NoneType"
  | VBool _ => "bool"
  | VInt _ => "int"
  | VFloat _ => "float"
  | VStr _ => "str"
  | VList _ => "list"
  | VDict _ => "dict"
  end.

Definition string_of_nat (n : nat) : string :=
  NilZero.string_of_uint (Nat.to_uint n).

Definition string_of_Z (z : Z) : string :=
  NilZero.string_of_int (Z.to_int z).

(* ================================================================= *)
(** ** Exceptions *)

(** The exception classes that occur.  All are subclasses of [Exception]
    but [SystemExit], which only [app.run] raises, outside of every
    [try]; no call made inside a [try] raises it.  An asynchronous
    [KeyboardInterrupt] is not modelled. *)
Inductive exn_class : Type :=
| SerialException
| OSError
| ValueError
| UnicodeDecodeError
| UnicodeEncodeError
| JSONDecodeError
| TypeError
| AttributeError
| RecursionError
| RuntimeError
| OverflowError
| SystemExit.

Definition exn_class_eqb (a b : exn_class) : bool :=
  match a, b with
  | SerialException, SerialException | OSError, OSError
  | ValueError, ValueError | UnicodeDecodeError, UnicodeDecodeError
  | UnicodeEncodeError, UnicodeEncodeError
  | JSONDecodeError, JSONDecodeError | TypeError, TypeError
  | AttributeError, AttributeError | RecursionError, RecursionError
  | RuntimeError, RuntimeError | OverflowError, OverflowError
  | SystemExit, SystemExit => true
  | _, _ => false
  end.

(** [issubclass a b]: [SerialException] derives from [OSError],
    [JSONDecodeError], [UnicodeDecodeError] and [UnicodeEncodeError] from
    [ValueError], [RecursionError] from [RuntimeError]. *)
Definition issubclass (a b : exn_class) : bool :=
  exn_class_eqb a b ||
  match a, b with
  | SerialException, OSError
  | JSONDecodeError, ValueError
  | UnicodeDecodeError, ValueError
  | UnicodeEncodeError, ValueError
  | RecursionError, RuntimeError => true
  | _, _ => false
  end.

(** An exception object: its class and the text [str(e)] gives. *)
Record exn : Type := mk_exn { exn_cls : exn_class; exn_str : string }.

Definition isinstance (e : exn) (c : exn_class) : bool :=
  issubclass (exn_cls e) c.

Inductive outcome (A : Type) : Type :=
| Ok (a : A)
| Raise (e : exn).
Arguments Ok {A} a.
Arguments Raise {A} e.

(* ================================================================= *)
(** ** [str.encode] *)

(** A character that is a surrogate: three bytes, the first [0xED] and
    the second [0xA0] or above. *)
Definition is_surrogate (c : string) : bool :=
  match c with
  | String b0 (String b1 _) =>
      Nat.eqb (nat_of_ascii b0) 237 && Nat.leb 160 (nat_of_ascii b1)
  | _ => false
  end.

(** UTF-8 can encode a text that holds no surrogate. *)
Definition encodable (s : string) : bool :=
  negb (existsb is_surrogate (utf8_chars s)).

(** The code point of a character of three bytes. *)
Definition code_point3 (c : string) : N :=
  match c with
  | String b0 (String b1 (String b2 _)) =>
      (N_of_ascii b0 - 224) * 4096 + (N_of_ascii b1 - 128) * 64
      + (N_of_ascii b2 - 128)
  | _ => 0
  end%N.

Definition hex_digit (n : N) : ascii :=
  if N.ltb n 10 then ascii_of_N (48 + n) else ascii_of_N (87 + n).

(** Four hexadecimal digits, in lower case. *)
Definition hex4_text (n : N) : string :=
  String (hex_digit (n / 4096 mod 16))
    (String (hex_digit (n / 256 mod 16))
       (String (hex_digit (n / 16 mod 16))
          (String (hex_digit (n mod 16)) EmptyString)))%N.

(** The number of surrogates at the head of a list of characters. *)
Fixpoint surrogate_run (chars : list string) : nat :=
  match chars with
  | c :: rest => if is_surrogate c then S (surrogate_run rest) else O
  | [] => O
  end.

(** The text of the [UnicodeEncodeError] for the characters [chars], the
    first of which is at position [i]: it reports the first run of
    surrogates, by its character when the run is of one. *)
Fixpoint encode_error_text (chars : list string) (i : nat) : string :=
  match chars with
  | [] => EmptyString
  | c :: rest =>
      if is_surrogate c then
        match surrogate_run rest with
        | O =>
            "'utf-8' codec can't encode character '\u"
            ^^ hex4_text (code_point3 c) ^^ "' in position "
            ^^ string_of_nat i ^^ ": surrogates not allowed"
        | S n =>
            "'utf-8' codec can't encode characters in position "
            ^^ string_of_nat i ^^ "-" ^^ string_of_nat (i + S n)
            ^^ ": surrogates not allowed"
        end
      else encode_error_text rest (S i)
  end.

(** [s.encode()]: UTF-8, strict. *)
Definition str_encode (s : string) : outcome (list byte) :=
  if encodable s then Ok (encode s)
  else Raise (mk_exn UnicodeEncodeError
                (encode_error_text (utf8_chars s) 0)).

(* ================================================================= *)
(** ** [dict.update] *)

(** [PySequence_Fast(item)]: a list is taken as it is, a string by its
    characters, a dictionary by its keys; a scalar is not iterable. *)
Definition as_sequence (item : value) : option (list value) :=
  match item with
  | VList l => Some l
  | VStr s => Some (map VStr (utf8_chars s))
  | VDict d => Some (map key_value (dict_keys d))
  | VNone | VBool _ | VInt _ | VFloat _ => None
  end.

(** [PyDict_MergeFromSeq2(d, items, override=1)]: each element must be a
    sequence of length 2 whose first component is hashable.  The elements
    before a faulty one have been stored when the exception is raised.
    Messages as in CPython 3.12. *)
Fixpoint merge_from_seq2 (d : dict) (i : nat) (items : list value)
  : dict * option exn :=
  match items with
  | [] => (d, None)
  | item :: rest =>
      match as_sequence item with
      | None =>
          (d, Some (mk_exn TypeError
             ("cannot convert dictionary update sequence element #"
              ^^ string_of_nat i ^^ " to a sequence")))
      | Some [k; v] =>
          match as_key k with
          | Some k' => merge_from_seq2 (dict_setitem d k' v) (S i) rest
          | None =>
              (d, Some (mk_exn TypeError
                 ("unhashable type: '" ^^ type_name k ^^ "'")))
          end
      | Some l =>
          (d, Some (mk_exn ValueError
             ("dictionary update sequence element #" ^^ string_of_nat i
              ^^ " has length " ^^ string_of_nat (List.length l)
              ^^ "; 2 is required")))
      end
  end.

(** [d.update(arg)] for one positional argument: a dictionary is merged,
    any other iterable is read as a sequence of pairs, and a value that is
    not iterable raises [TypeError].  The result is the dictionary after
    the call and the exception raised, if any. *)
Definition dict_update (d : dict) (arg : value) : dict * option exn :=
  match arg with
  | VDict other => (dict_merge d other, None)
  | VList items => merge_from_seq2 d 0 items
  | VStr s => merge_from_seq2 d 0 (map VStr (utf8_chars s))
  | VNone | VBool _ | VInt _ | VFloat _ =>
      (d, Some (mk_exn TypeError
         ("'" ^^ type_name arg ^^ "' object is not iterable")))
  end.

(* ================================================================= *)
(** ** The libraries the program calls *)

(** A pyserial port.  [P] is the state of the line together with the
    device behind it; every operation may raise. *)
Class SerialPort (P : Type) : Type := {
  (** [serial.Serial(port, baudrate, timeout=t)] *)
  serial_open : string -> Z -> Q -> outcome P;
  (** [p.write(data)], giving the number of bytes written *)
  serial_write : P -> list byte -> outcome nat * P;
  (** [p.in_waiting], the number of bytes in the receive buffer *)
  serial_in_waiting : P -> outcome nat * P;
  (** [p.read(size)] *)
  serial_read : P -> nat -> outcome (list byte) * P;
  (** what happens on the line while the caller sleeps *)
  serial_elapse : P -> Q -> P
}.

(** The remaining library functions. *)
Class Runtime : Type := {
  (** [json.loads(text)] *)
  json_loads : string -> outcome value;
  (** [bytes.decode()], UTF-8 and strict *)
  bytes_decode : list byte -> outcome string;
  (** [format(v)] of a value that is not a string *)
  py_repr : value -> string;
  (** the text of the [TypeError] of writing out, with sorted keys, a
      value that has a dictionary whose keys cannot be compared with
      each other; it names the two types compared first *)
  sort_error : value -> string;
  (** [app.run(host=.., port=.., debug=..)]: how the web server ends, if
      it does; it returns after an interrupt, and raises when it cannot
      bind ([OverflowError] for a port out of range, [SystemExit]
      otherwise) or when the reloader exits *)
  flask_run : string -> Z -> bool -> outcome unit
}.

(* ================================================================= *)
(** ** The program state and its monad *)

Inductive callback : Type := CbUpdateStatus.

(** What the program does to the outside, in the order it does it. *)
Inductive event : Type :=
| EvSerialOpen (port : string) (baudrate : Z) (timeout : Q)
| EvWrite (data : list byte)
| EvInWaiting
| EvRead (size : nat)
| EvSleep (secs : Q)
| EvPrint (line : string)
| EvTimerStart (secs : Q) (target : callback)
| EvAppRun (host : string) (port : Z) (debug : bool).

(** A Flask response: the value given to [jsonify] and the status code. *)
Record response : Type := mk_response { resp_body : value; resp_status : Z }.

(** Command-line arguments, after [argparse]. *)
Record cli_args : Type := mk_args {
  arg_port : string; arg_baud : Z; arg_host : string; arg_port_web : Z
}.

Definition default_args : cli_args :=
  mk_args "/dev/ttyUSB0" 115200 "0.0.0.0" 8080.

Section Program.
Context {P : Type} {port_ops : SerialPort P} {rt : Runtime}.

(** The module's globals and the events so far, oldest first. *)
Record world : Type := mk_world {
  serial_port : option P;
  serial_connected : bool;
  device_status : dict;
  trace : list event
}.

Definition initial_status : dict :=
  [ (KStr "mode", VStr "unknown");
    (KStr "btc_price", VFloat (S754_zero false));
    (KStr "btc_change", VFloat (S754_zero false));
    (KStr "wifi_connected", VBool false);
    (KStr "last_update", VInt 0) ].

Definition initial_world : world :=
  mk_world None false initial_status [].

Definition set_serial_port (p : option P) (w : world) : world :=
  mk_world p (serial_connected w) (device_status w) (trace w).
Definition set_serial_connected (b : bool) (w : world) : world :=
  mk_world (serial_port w) b (device_status w) (trace w).
Definition set_device_status (d : dict) (w : world) : world :=
  mk_world (serial_port w) (serial_connected w) d (trace w).
Definition log_event (ev : event) (w : world) : world :=
  mk_world (serial_port w) (serial_connected w) (device_status w)
           (trace w ++ [ev]).

(** State and exceptions: a computation ends with a value or with a
    raised exception, and in both cases with the world it reached. *)
Definition M (A : Type) : Type := world -> outcome A * world.

Definition ret {A} (a : A) : M A := fun w => (Ok a, w).

Definition bind {A B} (m : M A) (f : A -> M B) : M B :=
  fun w =>
    match m w with
    | (Ok a, w') => f a w'
    | (Raise e, w') => (Raise e, w')
    end.

Definition lift {A} (r : outcome A) : M A := fun w => (r, w).

Definition gets {A} (f : world -> A) : M A := fun w => (Ok (f w), w).

Definition modify (f : world -> world) : M unit := fun w => (Ok tt, f w).

(** [try: body / except Exception as e: handler e] *)
Definition try_except {A} (body : M A) (handler : exn -> M A) : M A :=
  fun w =>
    match body w with
    | (Ok a, w') => (Ok a, w')
    | (Raise e, w') => handler e w'
    end.

(** [try: body / except c: handler] *)
Definition try_except_class {A} (c : exn_class) (body : M A)
           (handler : exn -> M A) : M A :=
  fun w =>
    match body w with
    | (Ok a, w') => (Ok a, w')
    | (Raise e, w') =>
        if isinstance e c then handler e w' else (Raise e, w')
    end.
End Program.

Arguments world P : clear implicits.
Arguments M P A : clear implicits.

Declare Scope py_scope.
Delimit Scope py_scope with py.
Notation "x <- m ;; k" := (bind m (fun x => k))
  (at level 61, m at next level, right associativity) : py_scope.
Notation "' pat <- m ;; k" := (bind m (fun x => let 'pat := x in k))
  (at level 61, pat pattern, m at next level, right associativity) : py_scope.
Notation "m ;; k" := (bind m (fun _ => k))
  (at level 61, right associativity) : py_scope.

(* ================================================================= *)
(** ** Library calls as actions *)

Section Actions.
Context {P : Type} {port_ops : SerialPort P} {rt : Runtime}.
Local Open Scope py_scope.

Definition emit (ev : event) : M P unit := modify (log_event ev).

(** [print(line)], on a standard output that accepts the line. *)
Definition print (line : string) : M P unit := emit (EvPrint line).

(** [time.sleep(secs)]: the line goes on living meanwhile. *)
Definition sleep (secs : Q) : M P unit :=
  fun w =>
    let port := option_map (fun p => serial_elapse p secs) (serial_port w) in
    (Ok tt, log_event (EvSleep secs) (set_serial_port port w)).

(** A method of the global [serial_port]; the global is [None] until
    [connect_serial] has opened the port. *)
Definition port_call {A} (attr : string) (ev : event)
           (op : P -> outcome A * P) : M P A :=
  fun w =>
    match serial_port w with
    | None =>
        (Raise (mk_exn AttributeError
           ("'NoneType' object has no attribute '" ^^ attr ^^ "'")), w)
    | Some p =>
        let '(r, p') := op p in
        (r, log_event ev (set_serial_port (Some p') w))
    end.

(** [serial_port.write(arg)]: the method is looked up, then the argument
    is evaluated, then the call is made. *)
Definition port_write (arg : outcome (list byte)) : M P nat :=
  fun w =>
    match serial_port w, arg with
    | None, _ =>
        (Raise (mk_exn AttributeError
           "'NoneType' object has no attribute 'write'"), w)
    | Some _, Raise e => (Raise e, w)
    | Some p, Ok data =>
        let '(r, p') := serial_write p data in
        (r, log_event (EvWrite data) (set_serial_port (Some p') w))
    end.

Definition port_in_waiting : M P nat :=
  port_call "in_waiting" EvInWaiting serial_in_waiting.

Definition port_read (size : nat) : M P (list byte) :=
  port_call "read" (EvRead size) (fun p => serial_read p size).

(** [serial_port = serial.Serial(port, baudrate, timeout=t)] *)
Definition open_port (port : string) (baudrate : Z) (timeout : Q)
  : M P unit :=
  fun w =>
    let w' := log_event (EvSerialOpen port baudrate timeout) w in
    match serial_open port baudrate timeout with
    | Ok p => (Ok tt, set_serial_port (Some p) w')
    | Raise e => (Raise e, w')
    end.

(** [device_status.update(status)]: the dictionary is changed in place,
    also when the call ends with an exception. *)
Definition device_status_update (status : value) : M P unit :=
  fun w =>
    let '(d, err) := dict_update (device_status w) status in
    (match err with Some e => Raise e | None => Ok tt end,
     set_device_status d w).

(** [threading.Timer(secs, target).start()] *)
Definition timer_start (secs : Q) (target : callback) : M P unit :=
  emit (EvTimerStart secs target).

(** [app.run(host=.., port=.., debug=..)] *)
Definition app_run (host : string) (port : Z) (debug : bool) : M P unit :=
  emit (EvAppRun host port debug) ;;
  lift (flask_run host port debug).

(** [f"{v}"] *)
Definition format_value (v : value) : string :=
  match v with
  | VStr s => s
  | _ => py_repr v
  end.

(** [request.json.get(name)] for the parsed body [body]. *)
Definition request_json_get (body : value) (name : string) : M P value :=
  match body with
  | VDict d =>
      ret (match dict_get d (KStr name) with Some v => v | None => VNone end)
  | _ =>
      lift (Raise (mk_exn AttributeError
        ("'" ^^ type_name body ^^ "' object has no attribute 'get'")))
  end.

(** [jsonify({..})] and [jsonify({..}), code], for a dictionary written
    out in the handler, with string keys and values that JSON has. *)
Definition jsonify (d : dict) : response := mk_response (VDict d) 200.
Definition jsonify_status (d : dict) (code : Z) : response :=
  mk_response (VDict d) code.


(* =============================================================== *)
(** ** control_interface.py *)

Definition connect_serial (port : string) (baudrate : Z) : M P bool :=
  try_except
    (open_port port baudrate 1 ;;
     sleep 2 ;;
     modify (set_serial_connected true) ;;
     print ("Connected to " ^^ port ^^ " at " ^^ string_of_Z baudrate
            ^^ " baud") ;;
     ret true)
    (fun e =>
       print ("Failed to connect to " ^^ port ^^ ": " ^^ exn_str e) ;;
       modify (set_serial_connected false) ;;
       ret false).

Definition newline : string := String (ascii_of_nat 10) EmptyString.

Definition send_command (command : value) : M P (bool * string) :=
  connected <- gets serial_connected ;;
  if negb connected then ret (false, "Not connected to device")
  else
    try_except
      (port_write (str_encode (format_value command ^^ newline)) ;;
       sleep 0.1 ;;
       size <- port_in_waiting ;;
       data <- port_read size ;;
       response <- lift (bytes_decode data) ;;
       ret (true, response))
      (fun e =>
         print ("Failed to send command: " ^^ exn_str e) ;;
         ret (false, exn_str e)).

Definition update_status : M P unit :=
  '(success, response) <- send_command (VStr "status") ;;
  (if success : bool then
     try_except_class JSONDecodeError
       (status <- lift (json_loads response) ;;
        device_status_update status)
       (fun _ =>
          print ("Failed to parse status response: " ^^ response))
   else ret tt) ;;
  timer_start 5.0 CbUpdateStatus.

Definition api_command (body : value) : M P response :=
  command <- request_json_get body "command" ;;
  if negb (truthy command) then
    ret (jsonify_status
           [(KStr "success", VBool false);
            (KStr "error", VStr "No command provided")] 400)
  else
    '(success, response) <- send_command command ;;
    ret (jsonify [(KStr "success", VBool success);
                  (KStr "response", VStr response)]).

Definition api_mode (body : value) : M P response :=
  mode <- request_json_get body "mode" ;;
  if negb (truthy mode) then
    ret (jsonify_status
           [(KStr "success", VBool false);
            (KStr "error", VStr "No mode provided")] 400)
  else
    '(success, response) <-
       send_command (VStr ("mode " ^^ format_value mode)) ;;
    ret (jsonify [(KStr "success", VBool success);
                  (KStr "response", VStr response)]).


Definition main (args : cli_args) : M P unit :=
  connected <- connect_serial (arg_port args) (arg_baud args) ;;
  if connected : bool then
    update_status ;;
    app_run (arg_host args) (arg_port_web args) true
  else
    print "Failed to connect to the device. Please check the connection and try again.".

(** The wait of a started timer: the line lives on, and nothing is
    printed or sent. *)
Definition timer_delay (secs : Q) : M P unit :=
  modify (fun w =>
    set_serial_port
      (option_map (fun p => serial_elapse p secs) (serial_port w)) w).

(** The poller over time: each tick is started by the timer that the tick
    before it set up, so a tick that raises ends the sequence. *)
Fixpoint poller (ticks : nat) : M P unit :=
  match ticks with
  | O => ret tt
  | S n => update_status ;; timer_delay 5.0 ;; poller n
  end.
End Actions.

(* ================================================================= *)
(** ** A JSON reader

    A reader for the grammar [json.loads] accepts (RFC 8259, and the
    constants [NaN], [Infinity] and [-Infinity]), building the values the
    [json] module builds.  It stands for [json.loads] where the model is
    run on concrete replies.  Integers have no limit on their number of
    digits. *)

Module Json.
Local Open Scope Z_scope.

Definition decode_error (msg : string) : exn := mk_exn JSONDecodeError msg.

(** *** Numbers *)

(** The binary64 float nearest to [m * 10^e], ties to even: what
    [float(text)] gives for the decimal [text]. *)
Definition float_of_decimal (negative : bool) (m e : Z) : spec_float :=
  match m with
  | Zpos mp =>
      match e with
      | Zneg ep =>
          let d := Z.pow 10 (Zpos ep) in
          let k := Z.max 0 (64 + Zdigits2 d - Zdigits2 m) in
          let n := Z.mul m (Z.pow 2 k) in
          let q := Z.div n d in
          let r := Z.modulo n d in
          let loc := if Z.eqb r 0 then loc_Exact
                     else loc_Inexact (Z.compare (2 * r) d) in
          binary_round_aux 53 1024 negative q (- k) loc
      | _ => binary_round 53 1024 negative (Z.to_pos (m * Z.pow 10 e)) 0
      end
  | _ => S754_zero negative
  end.

Definition digit_of (c : ascii) : option Z :=
  let n := nat_of_ascii c in
  if Nat.leb 48 n && Nat.leb n 57 then Some (Z.of_nat (n - 48)) else None.

(** The longest run of digits at the head of [s]: its value on top of
    [acc], its length, and what follows. *)
Fixpoint scan_digits (s : string) (acc : Z) (count : nat)
  : Z * nat * string :=
  match s with
  | EmptyString => (acc, count, s)
  | String c rest =>
      match digit_of c with
      | Some d => scan_digits rest (10 * acc + d) (S count)
      | None => (acc, count, s)
      end
  end.

(** [0|[1-9][0-9]*] *)
Definition scan_int (s : string) : option (Z * string) :=
  match s with
  | String "0" rest => Some (0, rest)
  | _ =>
      match scan_digits s 0 0 with
      | (_, O, _) => None
      | (n, _, rest) => Some (n, rest)
      end
  end.

(** [(\.[0-9]+)?]: the digits as an integer and how many there are. *)
Definition scan_frac (s : string) : option (Z * nat) * string :=
  match s with
  | String "." rest =>
      match scan_digits rest 0 0 with
      | (_, O, _) => (None, s)
      | (f, n, rest') => (Some (f, n), rest')
      end
  | _ => (None, s)
  end.

(** [([eE][-+]?[0-9]+)?] *)
Definition scan_exp (s : string) : option Z * string :=
  let digits (negative : bool) (t : string) :=
    match scan_digits t 0 0 with
    | (_, O, _) => (None, s)
    | (x, _, rest) => (Some (if negative then - x else x), rest)
    end in
  match s with
  | String "e" t | String "E" t =>
      match t with
      | String "-" u => digits true u
      | String "+" u => digits false u
      | _ => digits false t
      end
  | _ => (None, s)
  end.

Definition scan_number (negative : bool) (s : string)
  : option (value * string) :=
  match scan_int s with
  | None => None
  | Some (n, s1) =>
      let '(frac, s2) := scan_frac s1 in
      let '(exp, s3) := scan_exp s2 in
      match frac, exp with
      | None, None => Some (VInt (if negative then - n else n), s3)
      | _, _ =>
          let '(f, nf) := match frac with Some fr => fr | None => (0, O) end in
          let x := match exp with Some x => x | None => 0 end in
          Some (VFloat (float_of_decimal negative
                          (n * Z.pow 10 (Z.of_nat nf) + f)
                          (x - Z.of_nat nf)), s3)
      end
  end.

(** *** Strings *)

Fixpoint strip_prefix (p s : string) : option string :=
  match p, s with
  | EmptyString, _ => Some s
  | String a p', String b s' =>
      if Ascii.eqb a b then strip_prefix p' s' else None
  | _, _ => None
  end.

Local Open Scope N_scope.

Definition hex_of (c : ascii) : option N :=
  let n := N_of_ascii c in
  if N.leb 48 n && N.leb n 57 then Some (n - 48)
  else if N.leb 65 n && N.leb n 70 then Some (n - 55)
  else if N.leb 97 n && N.leb n 102 then Some (n - 87)
  else None.

Definition hex4 (a b c d : ascii) : option N :=
  match hex_of a, hex_of b, hex_of c, hex_of d with
  | Some x, Some y, Some z, Some t => Some (((x * 16 + y) * 16 + z) * 16 + t)
  | _, _, _, _ => None
  end.

Definition chr (n : N) : ascii := ascii_of_N n.

(** A code point in the byte pattern of UTF-8. *)
Definition utf8_of (cp : N) (tail : string) : string :=
  if N.ltb cp 128 then String (chr cp) tail
  else if N.ltb cp 2048 then
    String (chr (192 + cp / 64)) (String (chr (128 + cp mod 64)) tail)
  else if N.ltb cp 65536 then
    String (chr (224 + cp / 4096))
      (String (chr (128 + (cp / 64) mod 64))
         (String (chr (128 + cp mod 64)) tail))
  else
    String (chr (240 + cp / 262144))
      (String (chr (128 + (cp / 4096) mod 64))
         (String (chr (128 + (cp / 64) mod 64))
            (String (chr (128 + cp mod 64)) tail))).

Definition is_high (cp : N) : bool := N.leb 55296 cp && N.leb cp 56319.
Definition is_low (cp : N) : bool := N.leb 56320 cp && N.leb cp 57343.

Local Close Scope N_scope.

(** The text of a string literal whose opening quote has been read, and
    what follows the closing quote. *)
Definition quote : ascii := ascii_of_nat 34.

Definition simple_escape (e : ascii) : option ascii :=
  if (e =? quote)%char then Some quote
  else if (e =? "\")%char then Some "\"%char
  else if (e =? "/")%char then Some "/"%char
  else if (e =? "b")%char then Some (ascii_of_nat 8)
  else if (e =? "f")%char then Some (ascii_of_nat 12)
  else if (e =? "n")%char then Some (ascii_of_nat 10)
  else if (e =? "r")%char then Some (ascii_of_nat 13)
  else if (e =? "t")%char then Some (ascii_of_nat 9)
  else None.

(** [XXXX] of a [\uXXXX] escape whose [\u] has been read. *)
Definition scan_hex4 (s : string) : option (N * string) :=
  match s with
  | String a (String b (String c (String d rest))) =>
      match hex4 a b c d with
      | Some cp => Some (cp, rest)
      | None => None
      end
  | _ => None
  end.

Definition prepend (f : string -> string) (r : option (string * string))
  : option (string * string) :=
  match r with
  | Some (txt, rest) => Some (f txt, rest)
  | None => None
  end.

Fixpoint scan_string (fuel : nat) (s : string) : option (string * string) :=
  match fuel, s with
  | O, _ | _, EmptyString => None
  | S fuel', String c rest =>
      if (c =? quote)%char then Some (EmptyString, rest)
      else if (c =? "\")%char then
        match rest with
        | EmptyString => None
        | String e rest1 =>
            if (e =? "u")%char then
              match scan_hex4 rest1 with
              | None => None
              | Some (hi, rest2) =>
                  match (if is_high hi then strip_prefix "\u" rest2
                         else None) with
                  | Some rest3 =>
                      match scan_hex4 rest3 with
                      | None => None
                      | Some (lo, rest4) =>
                          if is_low lo then
                            prepend
                              (utf8_of (65536 + (hi - 55296) * 1024
                                        + (lo - 56320))%N)
                              (scan_string fuel' rest4)
                          else prepend (utf8_of hi) (scan_string fuel' rest2)
                      end
                  | None => prepend (utf8_of hi) (scan_string fuel' rest2)
                  end
              end
            else
              match simple_escape e with
              | Some x => prepend (String x) (scan_string fuel' rest1)
              | None => None
              end
        end
      else if Nat.ltb (nat_of_ascii c) 32 then None
      else prepend (String c) (scan_string fuel' rest)
  end.

(** *** Values *)

Definition is_ws (c : ascii) : bool :=
  match nat_of_ascii c with
  | 32 | 9 | 10 | 13 => true
  | _ => false
  end%nat.

Fixpoint skip_ws (s : string) : string :=
  match s with
  | String c rest => if is_ws c then skip_ws rest else s
  | EmptyString => s
  end.

Definition scan_constant (s : string) : option (value * string) :=
  let try (word : string) (v : value) (otherwise : option (value * string)) :=
    match strip_prefix word s with
    | Some rest => Some (v, rest)
    | None => otherwise
    end in
  try "null" VNone
    (try "true" (VBool true)
       (try "false" (VBool false)
          (try "NaN" (VFloat S754_nan)
             (try "Infinity" (VFloat (S754_infinity false))
                (try "-Infinity" (VFloat (S754_infinity true)) None))))).

(** [dict(pairs)] *)
Definition dict_of_pairs (pairs : list (string * value)) : dict :=
  fold_left (fun d kv => dict_setitem d (KStr (fst kv)) (snd kv)) pairs [].

(** A string literal at the head of [s]. *)
Definition scan_literal (s : string) : option (string * string) :=
  match s with
  | String c rest =>
      if (c =? quote)%char then scan_string (String.length rest) rest
      else None
  | EmptyString => None
  end.

Definition head_is (c : ascii) (s : string) : option string :=
  match s with
  | String c' rest => if (c' =? c)%char then Some rest else None
  | EmptyString => None
  end.

(** What a scan finds: a value and the text after it, text that is not
    JSON, or containers nested deeper than the interpreter allows, with
    the kind of the one that went too deep. *)
Inductive scanned : Type :=
| Found (v : value) (rest : string)
| Malformed
| TooDeep (container : string).

Definition found (r : option (value * string)) : scanned :=
  match r with
  | Some (v, rest) => Found v rest
  | None => Malformed
  end.

(** A value at the head of [s] (no leading white space), the elements
    of an array after its bracket, and the members of an object after
    its brace.  [fuel] bounds the length of a chain of calls, [depth] is
    the number of containers that may still be entered. *)
Fixpoint scan_value (fuel depth : nat) (s : string) : scanned :=
  match fuel with
  | O => Malformed
  | S fuel' =>
      match head_is quote s, head_is "[" s, head_is "{" s, head_is "-" s with
      | Some _, _, _, _ =>
          match scan_literal s with
          | Some (txt, rest) => Found (VStr txt) rest
          | None => Malformed
          end
      | _, Some rest, _, _ =>
          match depth with
          | O => TooDeep "array"
          | S depth' =>
              match head_is "]" (skip_ws rest) with
              | Some rest' => Found (VList []) rest'
              | None => scan_elements fuel' depth' (skip_ws rest) []
              end
          end
      | _, _, Some rest, _ =>
          match depth with
          | O => TooDeep "object"
          | S depth' =>
              match head_is "}" (skip_ws rest) with
              | Some rest' => Found (VDict []) rest'
              | None => scan_members fuel' depth' (skip_ws rest) []
              end
          end
      | _, _, _, Some rest =>
          match scan_number true rest with
          | Some r => found (Some r)
          | None => found (scan_constant s)
          end
      | None, None, None, None =>
          match scan_number false s with
          | Some r => found (Some r)
          | None => found (scan_constant s)
          end
      end
  end

with scan_elements (fuel depth : nat) (s : string) (acc : list value)
  : scanned :=
  match fuel with
  | O => Malformed
  | S fuel' =>
      match scan_value fuel' depth s with
      | Found v rest =>
          match head_is "," (skip_ws rest), head_is "]" (skip_ws rest) with
          | Some rest', _ =>
              scan_elements fuel' depth (skip_ws rest') (acc ++ [v])
          | None, Some rest' => Found (VList (acc ++ [v])) rest'
          | None, None => Malformed
          end
      | failure => failure
      end
  end

with scan_members (fuel depth : nat) (s : string)
                  (acc : list (string * value)) : scanned :=
  match fuel with
  | O => Malformed
  | S fuel' =>
      match scan_literal s with
      | None => Malformed
      | Some (name, rest1) =>
          match head_is ":" (skip_ws rest1) with
          | None => Malformed
          | Some rest2 =>
              match scan_value fuel' depth (skip_ws rest2) with
              | Found v rest3 =>
                  match head_is "," (skip_ws rest3),
                        head_is "}" (skip_ws rest3) with
                  | Some rest4, _ =>
                      scan_members fuel' depth (skip_ws rest4)
                                   (acc ++ [(name, v)])
                  | None, Some rest4 =>
                      Found (VDict (dict_of_pairs (acc ++ [(name, v)])))
                            rest4
                  | None, None => Malformed
                  end
              | failure => failure
              end
          end
      end
  end.

Definition too_deep (container : string) : exn :=
  mk_exn RecursionError
    ("maximum recursion depth exceeded while decoding a JSON "
     ^^ container ^^ " from a unicode string").

(** [json.loads(text)] in an interpreter that lets the reader enter
    [limit] containers inside each other: one value, with white space
    around it and nothing else. *)
Definition loads_within (limit : nat) (text : string) : outcome value :=
  match scan_value (2 * String.length text + 2) limit (skip_ws text) with
  | Found v rest =>
      match skip_ws rest with
      | EmptyString => Ok v
      | _ => Raise (decode_error "Extra data")
      end
  | Malformed => Raise (decode_error "Expecting value")
  | TooDeep container => Raise (too_deep container)
  end.

(** [json.loads(text)] with room for any nesting the text can have. *)
Definition loads (text : string) : outcome value :=
  loads_within (String.length text) text.
End Json.

(* ================================================================= *)
(** ** A simulated device and a small runtime

    Instances of the two interfaces on which the model can be run: a
    device that answers each written line through its firmware, and a
    runtime with a JSON reader for the RFC 8259 grammar. *)

Module Sample.

(** The line: bytes the device has produced and not yet delivered,
    bytes waiting in the receive buffer, everything written so far, and
    whether the adapter has been unplugged. *)
Record sim_port : Type := mk_sim {
  sim_pending : list byte;
  sim_rx : list byte;
  sim_tx : list byte;
  sim_unplugged : bool
}.

Definition io_error : exn :=
  mk_exn SerialException "device disconnected".

Section Device.
(** What the device answers to the bytes of one write. *)
Variable firmware : list byte -> list byte.
(** The port names that can be opened. *)
Variable present : string -> bool.

Definition sim_open (port : string) (baudrate : Z) (timeout : Q)
  : outcome sim_port :=
  if present port then Ok (mk_sim [] [] [] false)
  else Raise (mk_exn SerialException
                ("could not open port " ^^ port)).

Definition sim_write (p : sim_port) (data : list byte)
  : outcome nat * sim_port :=
  if sim_unplugged p then (Raise io_error, p)
  else (Ok (List.length data),
        mk_sim (sim_pending p ++ firmware data) (sim_rx p)
               (sim_tx p ++ data) false).

Definition sim_in_waiting (p : sim_port) : outcome nat * sim_port :=
  if sim_unplugged p then (Raise io_error, p)
  else (Ok (List.length (sim_rx p)), p).

Definition sim_read (p : sim_port) (size : nat)
  : outcome (list byte) * sim_port :=
  if sim_unplugged p then (Raise io_error, p)
  else (Ok (firstn size (sim_rx p)),
        mk_sim (sim_pending p) (skipn size (sim_rx p)) (sim_tx p) false).

(** Whatever the device has produced arrives while the caller
    sleeps. *)
Definition sim_elapse (p : sim_port) (secs : Q) : sim_port :=
  mk_sim [] (sim_rx p ++ sim_pending p) (sim_tx p) (sim_unplugged p).

Definition sim_serial : SerialPort sim_port :=
  {| serial_open := sim_open;
     serial_write := sim_write;
     serial_in_waiting := sim_in_waiting;
     serial_read := sim_read;
     serial_elapse := sim_elapse |}.
End Device.

(** A firmware that answers every line with the same text. *)
Definition answers (reply : string) : list byte -> list byte :=
  fun _ => encode reply.

Definition any_port : string -> bool := fun _ => true.
Definition no_port : string -> bool := fun _ => false.

(** Strict UTF-8: shortest forms only, no surrogates, nothing above
    U+10FFFF. *)
Definition between (lo hi b : N) : bool := N.leb lo b && N.leb b hi.

Fixpoint utf8_valid (bs : list N) : bool :=
  match bs with
  | [] => true
  | b0 :: r0 =>
      if N.ltb b0 128 then utf8_valid r0
      else if between 194 223 b0 then
        match r0 with
        | b1 :: r1 => between 128 191 b1 && utf8_valid r1
        | _ => false
        end
      else if between 224 239 b0 then
        match r0 with
        | b1 :: b2 :: r2 =>
            between (if N.eqb b0 224 then 160 else 128)
                    (if N.eqb b0 237 then 159 else 191) b1
            && between 128 191 b2 && utf8_valid r2
        | _ => false
        end
      else if between 240 244 b0 then
        match r0 with
        | b1 :: b2 :: b3 :: r3 =>
            between (if N.eqb b0 240 then 144 else 128)
                    (if N.eqb b0 244 then 143 else 191) b1
            && between 128 191 b2 && between 128 191 b3 && utf8_valid r3
        | _ => false
        end
      else false
  end.

Definition utf8_decode (data : list byte) : outcome string :=
  if utf8_valid (map Byte.to_N data) then Ok (string_of_list_byte data)
  else Raise (mk_exn UnicodeDecodeError
                "'utf-8' codec can't decode bytes: invalid data").

(** [repr] of the scalars that have a fixed spelling. *)
Definition scalar_repr (v : value) : string :=
  match v with
  | VNone => "None"
  | VBool true => "True"
  | VBool false => "False"
  | VInt z => string_of_Z z
  | _ => "<" ^^ type_name v ^^ ">"
  end.

(** The sort that fails on DeviceStatus compares a key that is no string
    with a string. *)
Definition sample_sort_error (v : value) : string :=
  "'<' not supported between instances of 'int' and 'str'".

(** A web server that serves until it is interrupted, on a port it can
    bind. *)
Definition sample_run (host : string) (port : Z) (debug : bool)
  : outcome unit :=
  if Z.leb 0 port && Z.leb port 65535 then Ok tt
  else Raise (mk_exn OverflowError "bind(): port must be 0-65535.").

Definition runtime : Runtime :=
  {| json_loads := Json.loads;
     bytes_decode := utf8_decode;
     py_repr := scalar_repr;
     sort_error := sample_sort_error;
     flask_run := sample_run |}.

(** A device on any port that answers every line with [reply], and a
    machine with no serial port at all. *)
Definition device (reply : string) : SerialPort sim_port :=
  sim_serial (answers reply) any_port.
Definition no_device : SerialPort sim_port :=
  sim_serial (answers EmptyString) no_port.

(** Text written with apostrophes where it has double quotes. *)
Fixpoint dq (s : string) : string :=
  match s with
  | EmptyString => EmptyString
  | String c rest =>
      String (if (c =? "'")%char then Json.quote else c) (dq rest)
  end.

(** A world in which [connect_serial] has succeeded on the simulated
    device. *)
Definition connected_world (status : dict) : world sim_port :=
  mk_world (Some (mk_sim [] [] [] false)) true status [].

(** The same after the adapter has been pulled out. *)
Definition unplugged_world (status : dict) : world sim_port :=
  mk_world (Some (mk_sim [] [] [] true)) true status [].

(** The port and the world right after start-up. *)
Definition idle_port : sim_port := mk_sim [] [] [] false.
Definition fresh : world sim_port := connected_world initial_status.

(** Three replies: the status of the specification's example, a status
    with a field of another name, and a bare number. *)
Definition sniff_text : string := dq "{'mode':'sniff','btc_price':65000.1}".
Definition foo_text : string := dq "{'foo': 1}".
Definition number_text : string := "1".

(** A reply that is an array: a pair, then something that is no pair. *)
Definition half_text : string := dq "[['mode','x'],5]".

(** The world in which the status request to a device answering
    [reply] has been made. *)
Definition asked (reply : string) : world sim_port :=
  snd (@send_command _ (device reply) runtime (VStr "status") fresh).

(** One tick, and [main], against a device answering [reply]. *)
Definition tick (reply : string) : M sim_port unit :=
  @update_status _ (device reply) runtime.
Definition boot (reply : string) : M sim_port unit :=
  @main _ (device reply) runtime default_args.

(** A runtime whose JSON reader gives up on every text for lack of
    stack, as [json.loads] does on deeply nested input. *)
Definition recursion_error : exn :=
  mk_exn RecursionError "maximum recursion depth exceeded".
Definition shallow_runtime : Runtime :=
  {| json_loads := fun _ => Raise recursion_error;
     bytes_decode := utf8_decode;
     py_repr := scalar_repr;
     sort_error := sample_sort_error;
     flask_run := sample_run |}.

(** A runtime whose JSON reader can enter a thousand containers inside
    each other, the recursion limit of a fresh interpreter. *)
Definition recursion_limit : nat := 1000.
Definition limited_runtime : Runtime :=
  {| json_loads := Json.loads_within recursion_limit;
     bytes_decode := utf8_decode;
     py_repr := scalar_repr;
     sort_error := sample_sort_error;
     flask_run := sample_run |}.

(** A reply of opening brackets, more than the reader can enter. *)
Fixpoint brackets (n : nat) : string :=
  match n with
  | O => EmptyString
  | S k => String "[" (brackets k)
  end.
Definition deep_text : string := brackets 2000.

(** The text of one character, the surrogate U+D800, and a request body
    that holds it. *)
Definition lone_surrogate : string :=
  String (ascii_of_nat 237)
    (String (ascii_of_nat 160) (String (ascii_of_nat 128) EmptyString)).
Definition surrogate_body : string := dq "{'command':'\ud800'}".


(** Request bodies. *)
Definition scan_command : dict := [(KStr "command", VStr "scan")].
Definition empty_fields : dict :=
  [(KStr "command", VStr EmptyString); (KStr "mode", VStr EmptyString)].
End Sample.

(* ================================================================= *)
(** ** Vocabulary of the properties *)

(** The payloads of the writes of a trace, in order. *)
Fixpoint written (t : list event) : list (list byte) :=
  match t with
  | [] => []
  | EvWrite data :: rest => data :: written rest
  | _ :: rest => written rest
  end.

Definition is_timer_start (ev : event) : bool :=
  match ev with EvTimerStart _ _ => true | _ => false end.

Definition is_app_run (ev : event) : bool :=
  match ev with EvAppRun _ _ _ => true | _ => false end.

(** [k in d] *)
Definition has_key (d : dict) (k : key) : bool :=
  existsb (fun k' => key_eqb k' k) (dict_keys d).

(** The fields of DeviceStatus, as the module creates them. *)
Definition status_fields : list key :=
  [KStr "mode"; KStr "btc_price"; KStr "btc_change";
   KStr "wifi_connected"; KStr "last_update"].

(** The float written [65000.1]. *)
Definition float_65000_1 : spec_float :=
  Eval vm_compute in Json.float_of_decimal false 650001 (-1).

(** What [json.loads] makes of [{"mode":"sniff","btc_price":65000.1}]. *)
Definition sniff_status : value :=
  VDict [(KStr "mode", VStr "sniff"); (KStr "btc_price", VFloat float_65000_1)].

(** A value that [dict.update] cannot iterate over. *)
Definition is_scalar (v : value) : bool :=
  match v with
  | VNone | VBool _ | VInt _ | VFloat _ => true
  | VStr _ | VList _ | VDict _ => false
  end.

(** The event by which a tick sets up the next one. *)
Definition next_tick : event := EvTimerStart 5.0 CbUpdateStatus.

(** The line a tick prints for a reply that is not JSON. *)
Definition parse_failure (response : string) : event :=
  EvPrint ("Failed to parse status response: " ^^ response).

(** What [main] does when the port cannot be opened. *)
Definition connect_failure (args : cli_args) (e : exn) : list event :=
  [EvSerialOpen (arg_port args) (arg_baud args) 1;
   EvPrint ("Failed to connect to " ^^ arg_port args ^^ ": " ^^ exn_str e);
   EvPrint "Failed to connect to the device. Please check the connection and try again."].

Definition error_400 (message : string) : response :=
  mk_response
    (VDict [(KStr "success", VBool false); (KStr "error", VStr message)]) 400.

(** Whether the global [serial_port] holds a port. *)
Definition port_open {P : Type} (w : world P) : bool :=
  match serial_port w with Some _ => true | None => false end.

(** The number of timers started in a trace. *)
Definition timer_count (t : list event) : nat :=
  List.length (filter is_timer_start t).

(** The events of an exchange on the line, and of the report of its
    failure. *)
Definition is_exchange_event (ev : event) : bool :=
  match ev with
  | EvWrite _ | EvSleep _ | EvInWaiting | EvRead _ | EvPrint _ => true
  | EvSerialOpen _ _ _ | EvTimerStart _ _ | EvAppRun _ _ _ => false
  end.

(** The answer of a handler that went through to [send_command]. *)
Definition command_response (success : bool) (text : string) : response :=
  mk_response
    (VDict [(KStr "success", VBool success); (KStr "response", VStr text)])
    200.

Definition is_object (v : value) : bool :=
  match v with VDict _ => true | _ => false end.

(** The exception of [body.get] for a body that is no dictionary. *)
Definition no_get (body : value) : exn :=
  mk_exn AttributeError
    ("'" ^^ type_name body ^^ "' object has no attribute 'get'").

(** The lines [connect_serial] prints. *)
Definition connected_line (port : string) (baudrate : Z) : event :=
  EvPrint ("Connected to " ^^ port ^^ " at " ^^ string_of_Z baudrate
           ^^ " baud").
Definition connect_failed_line (port : string) (e : exn) : event :=
  EvPrint ("Failed to connect to " ^^ port ^^ ": " ^^ exn_str e).

(** The line [send_command] prints for a failed exchange. *)
Definition send_failed_line (e : exn) : event :=
  EvPrint ("Failed to send command: " ^^ exn_str e).


(** The field of a reply object that a merge leaves in a dictionary: the
    last one of that name. *)
Definition last_field (o : dict) (name : string) : option value :=
  dict_get (rev o) (KStr name).

Section Exchange.
Context {P : Type} {port_ops : SerialPort P} {rt : Runtime}.

(** One complete exchange on port [p]: [data] is written, the caller
    sleeps, asks how many bytes wait, reads that many and decodes
    them.  It ends on port [p'] with the text [text], having read
    [size] bytes. *)
Inductive exchange_ok (p : P) (data : list byte)
  : string -> nat -> P -> Prop :=
| ExchangeOk n p1 size p2 bytes p' text :
    serial_write p data = (Ok n, p1) ->
    serial_in_waiting (serial_elapse p1 0.1) = (Ok size, p2) ->
    serial_read p2 size = (Ok bytes, p') ->
    bytes_decode bytes = Ok text ->
    exchange_ok p data text size p'.

(** An exchange that stops at its first failing step, with the
    exception [e] of that step, the events up to it and the port it
    leaves. *)
Inductive exchange_fails (p : P) (data : list byte)
  : exn -> list event -> P -> Prop :=
| WriteFails e p' :
    serial_write p data = (Raise e, p') ->
    exchange_fails p data e [EvWrite data] p'
| InWaitingFails n p1 e p' :
    serial_write p data = (Ok n, p1) ->
    serial_in_waiting (serial_elapse p1 0.1) = (Raise e, p') ->
    exchange_fails p data e [EvWrite data; EvSleep 0.1; EvInWaiting] p'
| ReadFails n p1 size p2 e p' :
    serial_write p data = (Ok n, p1) ->
    serial_in_waiting (serial_elapse p1 0.1) = (Ok size, p2) ->
    serial_read p2 size = (Raise e, p') ->
    exchange_fails p data e
      [EvWrite data; EvSleep 0.1; EvInWaiting; EvRead size] p'
| DecodeFails n p1 size p2 bytes p' e :
    serial_write p data = (Ok n, p1) ->
    serial_in_waiting (serial_elapse p1 0.1) = (Ok size, p2) ->
    serial_read p2 size = (Ok bytes, p') ->
    bytes_decode bytes = Raise e ->
    exchange_fails p data e
      [EvWrite data; EvSleep 0.1; EvInWaiting; EvRead size] p'.
End Exchange.

(* ================================================================= *)
(** ** The serial link manager *)

Section SerialLink.
Context {P : Type} {port_ops : SerialPort P} {rt : Runtime}.

Ltac close_run :=
  unfold print, emit, modify, ret, log_event; simpl;
  rewrite <- ?app_assoc; reflexivity.

(** The body of [send_command]'s [try], started on port [p] with a
    command that can be encoded. *)
Lemma send_command_connected_run (command : value) (w : world P) (p : P) :
  serial_connected w = true ->
  serial_port w = Some p ->
  encodable (format_value command ^^ newline) = true ->
  let data := encode (format_value command ^^ newline) in
  (exists text size p',
      exchange_ok p data text size p' /\
      send_command command w =
        (Ok (true, text),
         mk_world (Some p') true (device_status w)
           (trace w ++ [EvWrite data; EvSleep 0.1; EvInWaiting;
                        EvRead size])))
  \/
  (exists e evs p',
      exchange_fails p data e evs p' /\
      send_command command w =
        (Ok (false, exn_str e),
         mk_world (Some p') true (device_status w)
           (trace w ++ evs
              ++ [EvPrint ("Failed to send command: " ^^ exn_str e)]))).
Proof.
  intros Hconn Hport Henc data.
  destruct w as [port conn status tr]; simpl in Hconn, Hport; subst.
  unfold send_command, bind, gets, try_except; simpl.
  unfold port_write, str_encode; simpl. rewrite Henc. fold data.
  destruct (serial_write p data) as [[n | e] p1] eqn:Hwrite; simpl.
  2:{ right. exists e, [EvWrite data], p1. split; [now constructor |].
      close_run. }
  unfold port_in_waiting, port_call; simpl.
  destruct (serial_in_waiting (serial_elapse p1 0.1))
    as [[size | e] p2] eqn:Hwait; simpl.
  2:{ right. exists e, [EvWrite data; EvSleep 0.1; EvInWaiting], p2.
      split; [econstructor; eassumption |].
      close_run. }
  unfold port_read, port_call; simpl.
  destruct (serial_read p2 size) as [[bytes | e] p3] eqn:Hread; simpl.
  2:{ right.
      exists e, [EvWrite data; EvSleep 0.1; EvInWaiting; EvRead size], p3.
      split; [econstructor; eassumption |].
      close_run. }
  unfold lift.
  destruct (bytes_decode bytes) as [text | e] eqn:Hdecode; simpl.
  - left. exists text, size, p3. split; [econstructor; eassumption |].
    close_run.
  - right.
    exists e, [EvWrite data; EvSleep 0.1; EvInWaiting; EvRead size], p3.
    split; [econstructor; eassumption |].
    close_run.
Qed.

(** The same with a command that cannot be encoded: the [try] ends
    before the write. *)
Lemma send_command_unencodable (command : value) (w : world P) (p : P) e :
  serial_connected w = true ->
  serial_port w = Some p ->
  str_encode (format_value command ^^ newline) = Raise e ->
  send_command command w
  = (Ok (false, exn_str e),
     mk_world (Some p) true (device_status w)
       (trace w ++ [send_failed_line e])).
Proof.
  intros Hconn Hport Henc.
  destruct w as [port conn status tr]; simpl in Hconn, Hport; subst.
  unfold send_command, bind, gets, try_except; simpl.
  unfold port_write; simpl. rewrite Henc. reflexivity.
Qed.

Lemma str_encode_cases (s : string) :
  (encodable s = true /\ str_encode s = Ok (encode s)) \/
  (encodable s = false /\ exists e, str_encode s = Raise e).
Proof.
  unfold str_encode. destruct (encodable s); [left | right]; eauto.
Qed.

Lemma written_app (t u : list event) :
  written (t ++ u) = written t ++ written u.
Proof.
  induction t as [| ev t IH]; simpl; [reflexivity |].
  destruct ev; simpl; now rewrite IH.
Qed.

Lemma exchange_fails_written (p : P) (data : list byte) e evs p' :
  exchange_fails p data e evs p' -> written evs = [data].
Proof. intros H; inversion H; reflexivity. Qed.

(** Every run of [send_command] with a command that can be encoded
    writes it once, in whatever way the exchange ends. *)
Lemma send_command_written (command : value) (w : world P) (p : P) :
  serial_connected w = true ->
  serial_port w = Some p ->
  encodable (format_value command ^^ newline) = true ->
  written (trace (snd (send_command command w))) =
  written (trace w) ++ [encode (format_value command ^^ newline)].
Proof.
  intros Hconn Hport Henc.
  destruct (send_command_connected_run command w p Hconn Hport Henc)
    as [(text & size & p' & _ & Heq) | (e & evs & p' & Hfail & Heq)];
    rewrite Heq; simpl; rewrite !written_app.
  - reflexivity.
  - now rewrite (exchange_fails_written _ _ _ _ _ Hfail).
Qed.

(** [send_command] hands every failure back as a result: it returns in
    every world, and leaves [device_status] and the connection flag
    alone. *)
Lemma send_command_returns (command : value) (w : world P) :
  exists r w',
    send_command command w = (Ok r, w') /\
    device_status w' = device_status w /\
    serial_connected w' = serial_connected w.
Proof.
  destruct (serial_connected w) eqn:Hconn.
  - destruct (serial_port w) as [p |] eqn:Hport.
    + destruct (str_encode_cases (format_value command ^^ newline))
        as [[Henc _] | [_ [e0 Henc]]].
      * destruct (send_command_connected_run command w p Hconn Hport Henc)
          as [(text & size & p' & _ & Heq) | (e & evs & p' & _ & Heq)];
          rewrite Heq; eauto.
      * rewrite (send_command_unencodable command w p e0 Hconn Hport Henc).
        eauto.
    + destruct w as [port conn status tr]; simpl in *; subst.
      unfold send_command, bind, gets, try_except, port_write,
        print, emit, modify, ret; simpl. eauto.
  - unfold send_command, bind, gets. rewrite Hconn. simpl.
    unfold ret. eauto.
Qed.

(** C1.  For every command, [send_command] called while the connection
    flag is not set returns [(False, "Not connected to device")] and
    leaves the world as it found it: the trace gains no event, so
    nothing is written to the transport and nothing is read from it,
    and the port is not touched. *)
Theorem send_command_not_connected (command : value) (w : world P) :
  serial_connected w = false ->
  send_command command w = (Ok (false, "Not connected to device"), w).
Proof.
  intros Hconn. unfold send_command, bind, gets. now rewrite Hconn.
Qed.

(** C8 (amended).  For every command text, [send_command] on an open
    connection returns a pair and never raises.  Either the whole
    exchange went through: the text and a newline were encoded and
    written, the caller slept a tenth of a second, asked how many bytes
    were waiting and read that many, and the pair is [True] with those
    bytes decoded.  Or an exception [e] was raised inside the [try], by a
    step on the transport or by decoding the bytes read, in which case
    the steps up to it are the only ones made, or by encoding the text,
    in which case nothing is written: the failure is printed and the
    pair is [False] with [str(e)]. *)
Theorem send_command_connected (text : string) (w : world P) (p : P) :
  serial_connected w = true ->
  serial_port w = Some p ->
  exists (r : bool * string) (w' : world P),
    send_command (VStr text) w = (Ok r, w') /\
    ((exists data reply size p',
         str_encode (text ^^ newline) = Ok data /\
         exchange_ok p data reply size p' /\
         r = (true, reply) /\
         serial_port w' = Some p' /\
         trace w' = trace w ++ [EvWrite data; EvSleep 0.1; EvInWaiting;
                                EvRead size])
     \/
     (exists data e evs p',
         str_encode (text ^^ newline) = Ok data /\
         exchange_fails p data e evs p' /\
         r = (false, exn_str e) /\
         serial_port w' = Some p' /\
         trace w' = trace w ++ evs ++ [send_failed_line e])
     \/
     (exists e,
         str_encode (text ^^ newline) = Raise e /\
         r = (false, exn_str e) /\
         serial_port w' = Some p /\
         trace w' = trace w ++ [send_failed_line e])).
Proof.
  intros Hconn Hport.
  destruct (str_encode_cases (text ^^ newline))
    as [[Henc Hdata] | [_ [e0 Henc]]].
  - destruct (send_command_connected_run (VStr text) w p Hconn Hport Henc)
      as [(reply & size & p' & Hok & Heq) | (e & evs & p' & Hfail & Heq)];
      rewrite Heq; do 2 eexists; (split; [reflexivity |]).
    + left. exists (encode (text ^^ newline)), reply, size, p'. auto.
    + right. left. exists (encode (text ^^ newline)), e, evs, p'. auto.
  - rewrite (send_command_unencodable (VStr text) w p e0 Hconn Hport Henc).
    do 2 eexists. split; [reflexivity |].
    right. right. exists e0. auto.
Qed.
End SerialLink.

(* ================================================================= *)
(** ** Dictionaries *)

Section DictFacts.

Lemma float_eqb_refl (f : spec_float) : float_eqb f f = true.
Proof.
  destruct f as [s | s | | s m e]; try destruct s; try reflexivity;
    unfold float_eqb, SFeqb, SFcompare;
    rewrite Z.compare_refl;
    change (Pos.compare_cont Eq m m) with (Pos.compare m m);
    now rewrite Pos.compare_refl.
Qed.

Lemma key_eqb_refl (k : key) : key_eqb k k = true.
Proof.
  destruct k as [| b | z | f | s]; simpl.
  - reflexivity.
  - now destruct b.
  - apply Z.eqb_refl.
  - apply float_eqb_refl.
  - apply String.eqb_refl.
Qed.

(** Only a string is equal to a string. *)
Lemma key_eqb_str (k : key) (s : string) :
  key_eqb k (KStr s) = true -> k = KStr s.
Proof.
  destruct k; simpl; try discriminate.
  intros H. apply String.eqb_eq in H. now subst.
Qed.

Lemma dict_keys_setitem (d : dict) (k : key) (v : value) :
  dict_keys (dict_setitem d k v) =
  if has_key d k then dict_keys d else dict_keys d ++ [k].
Proof.
  unfold has_key.
  induction d as [| [k' v'] rest IH]; simpl; [reflexivity |].
  destruct (key_eqb k' k); simpl; [reflexivity |].
  rewrite IH. now destruct (existsb _ (dict_keys rest)).
Qed.

Lemma has_key_app (ks : list key) (k : key) (extra : list key) :
  existsb (fun k' => key_eqb k' k) ks = true ->
  existsb (fun k' => key_eqb k' k) (ks ++ extra) = true.
Proof. intros H. rewrite existsb_app, H. reflexivity. Qed.

Lemma has_key_setitem_same (d : dict) (k : key) (v : value) :
  has_key (dict_setitem d k v) k = true.
Proof.
  unfold has_key. rewrite dict_keys_setitem.
  destruct (has_key d k) eqn:H; [exact H |].
  rewrite existsb_app. simpl. rewrite key_eqb_refl.
  now rewrite orb_true_r.
Qed.

Lemma has_key_setitem_mono (d : dict) (k k' : key) (v : value) :
  has_key d k = true -> has_key (dict_setitem d k' v) k = true.
Proof.
  unfold has_key. intros H. rewrite dict_keys_setitem.
  destruct (has_key d k'); [exact H | now apply has_key_app].
Qed.

(** Merging keeps the keys that were there, in their places, and adds
    keys of the merged dictionary only. *)
Lemma dict_keys_merge (o d : dict) :
  exists extra,
    dict_keys (dict_merge d o) = dict_keys d ++ extra /\
    forall k, In k extra -> In k (dict_keys o).
Proof.
  unfold dict_merge. revert d.
  induction o as [| [k v] o IH]; intros d; simpl.
  - exists []. split; [now rewrite app_nil_r | intros k []].
  - destruct (IH (dict_setitem d k v)) as (extra & Hkeys & Hin).
    rewrite Hkeys, dict_keys_setitem.
    destruct (has_key d k).
    + exists extra. split; [reflexivity | auto].
    + exists (k :: extra). split.
      * now rewrite <- app_assoc.
      * intros k' [-> | H]; auto.
Qed.

Lemma has_key_merge_mono (o d : dict) (k : key) :
  has_key d k = true -> has_key (dict_merge d o) k = true.
Proof.
  unfold dict_merge. revert d.
  induction o as [| [k' v] o IH]; intros d H; simpl; [exact H |].
  apply IH. now apply has_key_setitem_mono.
Qed.

(** Every key of the merged dictionary is a key afterwards. *)
Lemma has_key_merge (o d : dict) (k : key) :
  In k (dict_keys o) -> has_key (dict_merge d o) k = true.
Proof.
  revert d.
  induction o as [| [k' v] o IH]; intros d; simpl; [intros [] |].
  intros [-> | H].
  - apply (has_key_merge_mono o). apply has_key_setitem_same.
  - apply (IH (dict_setitem d k' v) H).
Qed.

(** The keys stay as they were exactly when the merged dictionary
    brings no new key. *)
Lemma dict_keys_merge_same (o d : dict) :
  dict_keys (dict_merge d o) = dict_keys d <->
  (forall k, In k (dict_keys o) -> has_key d k = true).
Proof.
  split.
  - intros Hsame k Hin.
    pose proof (has_key_merge o d k Hin) as H.
    unfold has_key in *. now rewrite Hsame in H.
  - unfold dict_merge. revert d.
    induction o as [| [k v] o IH]; intros d Hall; simpl; [reflexivity |].
    assert (Hk : has_key d k = true) by (apply Hall; now left).
    assert (Hkeys : dict_keys (dict_setitem d k v) = dict_keys d)
      by (now rewrite dict_keys_setitem, Hk).
    rewrite IH; [exact Hkeys |].
    intros k' Hin. unfold has_key. rewrite Hkeys.
    apply Hall. now right.
Qed.

(** Reading a string key after a string key has been stored. *)
Lemma dict_get_setitem_str (d : dict) (s t : string) (v : value) :
  dict_get (dict_setitem d (KStr s) v) (KStr t) =
  if String.eqb s t then Some v else dict_get d (KStr t).
Proof.
  induction d as [| [k' v'] rest IH]; simpl.
  - now destruct (String.eqb s t).
  - destruct (key_eqb k' (KStr s)) eqn:Hs; simpl.
    + apply key_eqb_str in Hs. subst k'. simpl.
      now destruct (String.eqb s t).
    + destruct (key_eqb k' (KStr t)) eqn:Ht; [| exact IH].
      apply key_eqb_str in Ht. subst k'. simpl in Hs.
      rewrite String.eqb_sym in Hs. now rewrite Hs.
Qed.
End DictFacts.

(* ================================================================= *)
(** ** The status poller *)

Section StatusPoller.
Context {P : Type} {port_ops : SerialPort P} {rt : Runtime}.

(** The state the exchange of a tick leaves carries the status the
    tick started with. *)
Lemma send_command_status (command : value) (w w1 : world P) r :
  send_command command w = (Ok r, w1) ->
  device_status w1 = device_status w.
Proof.
  intros H. destruct (send_command_returns command w)
    as (r' & w' & Heq & Hstatus & _).
  rewrite Heq in H. now inversion H; subst.
Qed.

(** *** What one tick does, case by case *)

Lemma update_status_send_failed (w w1 : world P) (message : string) :
  send_command (VStr "status") w = (Ok (false, message), w1) ->
  update_status w = (Ok tt, log_event next_tick w1).
Proof.
  intros Hsend. unfold update_status, bind. rewrite Hsend. reflexivity.
Qed.

Lemma update_status_parse_error (w w1 : world P) (response : string) e :
  send_command (VStr "status") w = (Ok (true, response), w1) ->
  json_loads response = Raise e ->
  update_status w =
    if isinstance e JSONDecodeError
    then (Ok tt, log_event next_tick
                   (log_event (parse_failure response) w1))
    else (Raise e, w1).
Proof.
  intros Hsend Hjson.
  unfold update_status, bind. rewrite Hsend. simpl.
  unfold try_except_class, bind, lift. rewrite Hjson.
  now destruct (isinstance e JSONDecodeError).
Qed.

Lemma update_status_parsed (w w1 : world P) (response : string) v :
  send_command (VStr "status") w = (Ok (true, response), w1) ->
  json_loads response = Ok v ->
  update_status w =
    match dict_update (device_status w) v with
    | (d, None) => (Ok tt, log_event next_tick (set_device_status d w1))
    | (d, Some e) =>
        if isinstance e JSONDecodeError
        then (Ok tt, log_event next_tick
                       (log_event (parse_failure response)
                          (set_device_status d w1)))
        else (Raise e, set_device_status d w1)
    end.
Proof.
  intros Hsend Hjson.
  unfold update_status, bind. rewrite Hsend. simpl.
  unfold try_except_class, bind, lift. rewrite Hjson.
  unfold device_status_update.
  rewrite (send_command_status _ _ _ _ Hsend).
  destruct (dict_update (device_status w) v) as [d [e |]]; simpl;
    [now destruct (isinstance e JSONDecodeError) | reflexivity].
Qed.

(** A reply that is JSON but no container makes [dict.update] raise
    [TypeError], which the [except json.JSONDecodeError] clause lets
    through: the tick ends there, before the timer is started. *)
Lemma update_status_scalar_reply (w w1 : world P) (response : string) v :
  send_command (VStr "status") w = (Ok (true, response), w1) ->
  json_loads response = Ok v ->
  is_scalar v = true ->
  update_status w =
    (Raise (mk_exn TypeError
              ("'" ^^ type_name v ^^ "' object is not iterable")),
     set_device_status (device_status w) w1).
Proof.
  intros Hsend Hjson Hscalar.
  rewrite (update_status_parsed _ _ _ _ Hsend Hjson).
  destruct v; try discriminate; reflexivity.
Qed.

(** A tick that returns has set up the next one. *)
Lemma update_status_returns_rescheduled (w w' : world P) :
  update_status w = (Ok tt, w') ->
  exists t, trace w' = t ++ [next_tick].
Proof.
  unfold update_status, bind.
  destruct (send_command (VStr "status") w) as [[[success response] | e] w1];
    [| discriminate].
  match goal with
  | |- context [(if success then ?body else _) w1] =>
      destruct ((if success then body else ret tt) w1) as [[[] | e] w2]
  end; [| discriminate].
  intros H. inversion H. exists (trace w2). reflexivity.
Qed.

(** A tick that raises is the last one. *)
Lemma poller_stops (w w' : world P) e (n : nat) :
  update_status w = (Raise e, w') ->
  poller (S n) w = (Raise e, w').
Proof. intros H. simpl. unfold bind. now rewrite H. Qed.

(** C2 (amended).  For every device reply that parses as a JSON
    object, the poll merges every field of the reply into
    DeviceStatus, whatever its name: the status after the poll is the
    status before it updated with the reply.  Its keys are the keys it
    had, in their places, followed by keys of the reply; every key of
    the reply is a key afterwards; and the keys are the same as before
    exactly when every key of the reply was already one. *)
Theorem poll_merges_reply_object (w w1 : world P) (response : string)
        (o : dict) :
  send_command (VStr "status") w = (Ok (true, response), w1) ->
  json_loads response = Ok (VDict o) ->
  exists w',
    update_status w = (Ok tt, w') /\
    device_status w' = dict_merge (device_status w) o /\
    (exists extra,
        dict_keys (device_status w') = dict_keys (device_status w) ++ extra /\
        forall k, In k extra -> In k (dict_keys o)) /\
    (forall k, In k (dict_keys o) -> has_key (device_status w') k = true) /\
    (dict_keys (device_status w') = dict_keys (device_status w) <->
     forall k, In k (dict_keys o) -> has_key (device_status w) k = true).
Proof.
  intros Hsend Hjson.
  rewrite (update_status_parsed _ _ _ _ Hsend Hjson). simpl.
  eexists. split; [reflexivity |]. simpl.
  split; [reflexivity |].
  split; [apply dict_keys_merge |].
  split; [intros k; apply has_key_merge | apply dict_keys_merge_same].
Qed.

(** C3.  If the reply to a status poll is the JSON object
    [{"mode":"sniff","btc_price":65000.1}], then after the poll
    DeviceStatus has [mode = "sniff"] and [btc_price = 65000.1], and
    [wifi_connected], [btc_change] and [last_update], like every field
    other than those two, read as they did before the poll. *)
Theorem poll_sniff_reply (w w1 : world P) (response : string) :
  send_command (VStr "status") w = (Ok (true, response), w1) ->
  json_loads response = Ok sniff_status ->
  exists w',
    update_status w = (Ok tt, w') /\
    dict_get (device_status w') (KStr "mode") = Some (VStr "sniff") /\
    dict_get (device_status w') (KStr "btc_price")
      = Some (VFloat float_65000_1) /\
    dict_get (device_status w') (KStr "wifi_connected")
      = dict_get (device_status w) (KStr "wifi_connected") /\
    dict_get (device_status w') (KStr "btc_change")
      = dict_get (device_status w) (KStr "btc_change") /\
    dict_get (device_status w') (KStr "last_update")
      = dict_get (device_status w) (KStr "last_update") /\
    (forall field, field <> "mode" -> field <> "btc_price" ->
       dict_get (device_status w') (KStr field)
       = dict_get (device_status w) (KStr field)).
Proof.
  intros Hsend Hjson.
  rewrite (update_status_parsed _ _ _ _ Hsend Hjson).
  eexists. split; [reflexivity |].
  cbn [dict_update sniff_status dict_merge fold_left fst snd
       device_status log_event set_device_status].
  repeat split; rewrite ?dict_get_setitem_str; try reflexivity.
  intros field Hmode Hprice. rewrite !dict_get_setitem_str.
  destruct (String.eqb_spec "btc_price" field) as [E | _];
    [now elim Hprice |].
  destruct (String.eqb_spec "mode" field) as [E | _];
    [now elim Hmode | reflexivity].
Qed.

(** X21.  For every device reply that [json.loads] rejects with a
    [JSONDecodeError], the poll prints the parse failure with the reply
    in it, leaves DeviceStatus as it was, and sets up the next tick. *)
Theorem poll_unparseable_reply (w w1 : world P) (response : string) e :
  send_command (VStr "status") w = (Ok (true, response), w1) ->
  json_loads response = Raise e ->
  exn_cls e = JSONDecodeError ->
  exists w',
    update_status w = (Ok tt, w') /\
    device_status w' = device_status w /\
    trace w' = trace w1 ++ [parse_failure response; next_tick].
Proof.
  intros Hsend Hjson Hcls.
  rewrite (update_status_parse_error _ _ _ _ Hsend Hjson).
  unfold isinstance. rewrite Hcls. simpl.
  eexists. split; [reflexivity |]. simpl.
  split; [exact (send_command_status _ _ _ _ Hsend) |].
  now rewrite <- app_assoc.
Qed.
End StatusPoller.

(* ================================================================= *)
(** ** The HTTP facade *)

Section HttpFacade.
Context {P : Type} {port_ops : SerialPort P} {rt : Runtime}.

(** A handler whose field reads as a falsy value answers 400 and goes
    no further. *)
Lemma api_command_rejects (d : dict) (w : world P) :
  truthy (match dict_get d (KStr "command") with
          | Some v => v | None => VNone end) = false ->
  api_command (VDict d) w = (Ok (error_400 "No command provided"), w).
Proof.
  intros H. unfold api_command, bind, request_json_get, ret.
  now rewrite H.
Qed.

Lemma api_mode_rejects (d : dict) (w : world P) :
  truthy (match dict_get d (KStr "mode") with
          | Some v => v | None => VNone end) = false ->
  api_mode (VDict d) w = (Ok (error_400 "No mode provided"), w).
Proof.
  intros H. unfold api_mode, bind, request_json_get, ret.
  now rewrite H.
Qed.


(** C7.  A POST to [/api/command] whose body is an object without a
    [command] key, such as [{}], is answered with status 400 and the
    body [{"success": false, "error": "No command provided"}]; the
    world, and with it the transport, is left as it was. *)
Theorem api_command_missing_field (d : dict) (w : world P) :
  dict_get d (KStr "command") = None ->
  api_command (VDict d) w = (Ok (error_400 "No command provided"), w).
Proof.
  intros H. apply api_command_rejects. now rewrite H.
Qed.

(** C10.  A POST to [/api/command] or [/api/mode] whose field is
    present with a falsy value (an empty string, zero, [false], [null],
    an empty array or object) gets the answer a missing field gets:
    status 400 with "No command provided", respectively "No mode
    provided", and a world left as it was. *)
Theorem api_falsy_field (d : dict) (v : value) (w : world P) :
  truthy v = false ->
  (dict_get d (KStr "command") = Some v ->
   api_command (VDict d) w = (Ok (error_400 "No command provided"), w))
  /\
  (dict_get d (KStr "mode") = Some v ->
   api_mode (VDict d) w = (Ok (error_400 "No mode provided"), w)).
Proof.
  intros Hfalsy. split; intros Hget.
  - apply api_command_rejects. now rewrite Hget.
  - apply api_mode_rejects. now rewrite Hget.
Qed.
End HttpFacade.

(* ================================================================= *)
(** ** Start-up *)

Section Startup.
Context {P : Type} {port_ops : SerialPort P} {rt : Runtime}.

(** When the port cannot be opened, [main] prints the two failure
    lines and returns: no tick, no timer, no web server. *)
Lemma main_connect_failed (args : cli_args) (w : world P) e :
  serial_open (arg_port args) (arg_baud args) 1 = Raise e ->
  main args w =
    (Ok tt, mk_world (serial_port w) false (device_status w)
              (trace w ++ connect_failure args e)).
Proof.
  intros Hopen.
  unfold main, bind, connect_serial, try_except, bind, open_port.
  rewrite Hopen. unfold print, emit, modify, ret, log_event; simpl.
  now rewrite <- !app_assoc.
Qed.

(** When it can, [main] runs the first tick and, if that tick returns,
    runs the web server and ends as the server ends. *)
Lemma main_connected (args : cli_args) (w : world P) (p : P) :
  serial_open (arg_port args) (arg_baud args) 1 = Ok p ->
  let w0 :=
    mk_world (Some (serial_elapse p 2)) true (device_status w)
      (trace w ++ [EvSerialOpen (arg_port args) (arg_baud args) 1;
                   EvSleep 2;
                   EvPrint ("Connected to " ^^ arg_port args ^^ " at "
                            ^^ string_of_Z (arg_baud args) ^^ " baud")]) in
  main args w =
    match update_status w0 with
    | (Ok _, w1) =>
        (flask_run (arg_host args) (arg_port_web args) true,
         log_event (EvAppRun (arg_host args) (arg_port_web args) true) w1)
    | (Raise e, w1) => (Raise e, w1)
    end.
Proof.
  intros Hopen w0.
  unfold main, bind, connect_serial, try_except, bind, open_port.
  rewrite Hopen. unfold sleep, print, emit, modify, ret, log_event; simpl.
  rewrite <- !app_assoc. subst w0. simpl.
  match goal with
  | |- context [update_status ?x] =>
      destruct (update_status x) as [[[] | e] w1]
  end; reflexivity.
Qed.
End Startup.

(* ================================================================= *)
(** ** Runs on the simulated device *)

(** C1 at a concrete input: a status request before any connection. *)
Lemma send_command_not_connected_witness :
  serial_connected (@initial_world Sample.sim_port) = false /\
  @send_command _ (Sample.device "OK") Sample.runtime (VStr "status")
    initial_world
  = (Ok (false, "Not connected to device"), initial_world).
Proof.
  split; [reflexivity |].
  apply (@send_command_not_connected _ (Sample.device "OK") Sample.runtime);
    reflexivity.
Defined.

(** C8 at a concrete input: [status] sent to a device that answers
    [OK]. *)
Lemma send_command_connected_witness :
  serial_connected Sample.fresh = true /\
  serial_port Sample.fresh = Some Sample.idle_port /\
  exists r w',
    @send_command _ (Sample.device "OK") Sample.runtime (VStr "status")
      Sample.fresh
    = (Ok r, w').
Proof.
  split; [reflexivity |]. split; [reflexivity |].
  destruct (@send_command_connected _ (Sample.device "OK") Sample.runtime
              "status" Sample.fresh Sample.idle_port eq_refl eq_refl)
    as (r & w' & Heq & _).
  exists r, w'. exact Heq.
Defined.

(** C2 as first stated fails: a reply with a field of another name is a
    JSON object, and after the poll that field is a key of DeviceStatus,
    which had the five fields and no other. *)
Lemma poll_adds_unrecognized_field :
  Json.loads Sample.foo_text = Ok (VDict [(KStr "foo", VInt 1)]) /\
  fst (@send_command _ (Sample.device Sample.foo_text) Sample.runtime
         (VStr "status") Sample.fresh)
    = Ok (true, Sample.foo_text) /\
  dict_keys (device_status Sample.fresh) = status_fields /\
  dict_keys (device_status (snd (Sample.tick Sample.foo_text Sample.fresh)))
    = status_fields ++ [KStr "foo"] /\
  ~ In (KStr "foo") status_fields.
Proof.
  do 4 (split; [vm_compute; reflexivity |]).
  simpl. intuition discriminate.
Qed.

(** C2 (amended) at a concrete input: the same reply. *)
Lemma poll_merges_reply_object_witness :
  @send_command _ (Sample.device Sample.foo_text) Sample.runtime
    (VStr "status") Sample.fresh
    = (Ok (true, Sample.foo_text), Sample.asked Sample.foo_text) /\
  Json.loads Sample.foo_text = Ok (VDict [(KStr "foo", VInt 1)]) /\
  device_status (snd (Sample.tick Sample.foo_text Sample.fresh))
    = dict_merge initial_status [(KStr "foo", VInt 1)].
Proof.
  assert (Hsend : @send_command _ (Sample.device Sample.foo_text)
                    Sample.runtime (VStr "status") Sample.fresh
                  = (Ok (true, Sample.foo_text), Sample.asked Sample.foo_text))
    by (vm_compute; reflexivity).
  assert (Hjson : Json.loads Sample.foo_text
                  = Ok (VDict [(KStr "foo", VInt 1)]))
    by (vm_compute; reflexivity).
  split; [exact Hsend |]. split; [exact Hjson |].
  destruct (@poll_merges_reply_object _ (Sample.device Sample.foo_text)
              Sample.runtime Sample.fresh _ _ _ Hsend Hjson)
    as (w' & Heq & Hstatus & _).
  unfold Sample.tick. rewrite Heq. exact Hstatus.
Defined.

(** C3 at a concrete input: the device answers with the text of the
    example, and the reader makes [sniff_status] of it. *)
Lemma poll_sniff_reply_witness :
  @send_command _ (Sample.device Sample.sniff_text) Sample.runtime
    (VStr "status") Sample.fresh
    = (Ok (true, Sample.sniff_text), Sample.asked Sample.sniff_text) /\
  Json.loads Sample.sniff_text = Ok sniff_status /\
  dict_get (device_status (snd (Sample.tick Sample.sniff_text Sample.fresh)))
    (KStr "mode") = Some (VStr "sniff") /\
  dict_get (device_status (snd (Sample.tick Sample.sniff_text Sample.fresh)))
    (KStr "btc_price") = Some (VFloat float_65000_1) /\
  dict_get (device_status (snd (Sample.tick Sample.sniff_text Sample.fresh)))
    (KStr "wifi_connected") = Some (VBool false).
Proof.
  assert (Hsend : @send_command _ (Sample.device Sample.sniff_text)
                    Sample.runtime (VStr "status") Sample.fresh
                  = (Ok (true, Sample.sniff_text),
                     Sample.asked Sample.sniff_text))
    by (vm_compute; reflexivity).
  assert (Hjson : Json.loads Sample.sniff_text = Ok sniff_status)
    by (vm_compute; reflexivity).
  split; [exact Hsend |]. split; [exact Hjson |].
  destruct (@poll_sniff_reply _ (Sample.device Sample.sniff_text)
              Sample.runtime Sample.fresh _ _ Hsend Hjson)
    as (w' & Heq & Hmode & Hprice & Hwifi & _).
  unfold Sample.tick. rewrite Heq. simpl.
  split; [exact Hmode |]. split; [exact Hprice |]. exact Hwifi.
Defined.

(** X21 at a concrete input: the device answers [OK]. *)
Lemma poll_unparseable_reply_witness :
  @send_command _ (Sample.device "OK") Sample.runtime (VStr "status")
    Sample.fresh
    = (Ok (true, "OK"), Sample.asked "OK") /\
  Json.loads "OK" = Raise (Json.decode_error "Expecting value") /\
  exists w',
    Sample.tick "OK" Sample.fresh = (Ok tt, w') /\
    device_status w' = device_status Sample.fresh /\
    trace w' = trace (Sample.asked "OK") ++ [parse_failure "OK"; next_tick].
Proof.
  assert (Hsend : @send_command _ (Sample.device "OK") Sample.runtime
                    (VStr "status") Sample.fresh
                  = (Ok (true, "OK"), Sample.asked "OK"))
    by (vm_compute; reflexivity).
  assert (Hjson : Json.loads "OK"
                  = Raise (Json.decode_error "Expecting value"))
    by (vm_compute; reflexivity).
  split; [exact Hsend |]. split; [exact Hjson |].
  exact (@poll_unparseable_reply _ (Sample.device "OK") Sample.runtime
           Sample.fresh _ "OK" _ Hsend Hjson eq_refl).
Defined.

(** C5 at the failing input.  The device answers the status request with
    [1], which is JSON but no object: [dict.update] raises [TypeError],
    the tick ends with that exception before it has started the timer,
    and no later tick runs. *)
Theorem poll_number_reply_ends_poller :
  exists w',
    Sample.tick Sample.number_text Sample.fresh
    = (Raise (mk_exn TypeError "'int' object is not iterable"), w') /\
    existsb is_timer_start (trace w') = false /\
    forall n,
      @poller _ (Sample.device Sample.number_text) Sample.runtime (S n)
        Sample.fresh
      = (Raise (mk_exn TypeError "'int' object is not iterable"), w').
Proof.
  assert (Htick :
    Sample.tick Sample.number_text Sample.fresh
    = (Raise (mk_exn TypeError "'int' object is not iterable"),
       set_device_status (device_status Sample.fresh)
         (Sample.asked Sample.number_text))).
  { apply (@update_status_scalar_reply _ (Sample.device Sample.number_text)
             Sample.runtime Sample.fresh (Sample.asked Sample.number_text)
             Sample.number_text (VInt 1));
      vm_compute; reflexivity. }
  eexists. split; [exact Htick |].
  split; [vm_compute; reflexivity |].
  intros n. apply poller_stops. exact Htick.
Qed.


(** C7 at a concrete input: the body [{}]. *)
Lemma api_command_missing_field_witness :
  dict_get [] (KStr "command") = None /\
  @api_command _ (Sample.device "OK") Sample.runtime (VDict []) Sample.fresh
  = (Ok (error_400 "No command provided"), Sample.fresh).
Proof.
  split; [reflexivity |].
  apply (@api_command_missing_field _ (Sample.device "OK") Sample.runtime).
  reflexivity.
Defined.

(** C10 at a concrete input: both fields present and empty. *)
Lemma api_falsy_field_witness :
  truthy (VStr EmptyString) = false /\
  @api_command _ (Sample.device "OK") Sample.runtime
    (VDict Sample.empty_fields) Sample.fresh
  = (Ok (error_400 "No command provided"), Sample.fresh) /\
  @api_mode _ (Sample.device "OK") Sample.runtime
    (VDict Sample.empty_fields) Sample.fresh
  = (Ok (error_400 "No mode provided"), Sample.fresh).
Proof.
  split; [reflexivity |].
  destruct (@api_falsy_field _ (Sample.device "OK") Sample.runtime
              Sample.empty_fields (VStr EmptyString) Sample.fresh eq_refl)
    as [Hcommand Hmode].
  split; [apply Hcommand | apply Hmode]; reflexivity.
Defined.

(** C9 at the failing input.  The port opens, and the device answers the
    first status request with [1]: the first tick raises [TypeError],
    [main] ends with that exception, and neither the timer nor the web
    server has been started. *)
Theorem main_number_reply_no_server :
  exists w',
    Sample.boot Sample.number_text initial_world
    = (Raise (mk_exn TypeError "'int' object is not iterable"), w') /\
    serial_connected w' = true /\
    existsb is_app_run (trace w') = false /\
    existsb is_timer_start (trace w') = false.
Proof.
  eexists. split; [vm_compute; reflexivity |].
  repeat split.
Qed.

(* ================================================================= *)
(** ** Further runs *)

(** The float of the example, bit for bit: [0x1.fbd0333333333p+15]. *)
Example float_65000_1_bits :
  float_65000_1 = S754_finite false 8933545719575347 (-37)
  /\ valid_binary 53 1024 float_65000_1 = true.
Proof. split; reflexivity. Qed.

(** A command sent after the adapter has been pulled out: the write
    raises, the failure is printed and handed back. *)
Example send_command_unplugged :
  @send_command _ (Sample.device "OK") Sample.runtime (VStr "scan")
    (Sample.unplugged_world initial_status)
  = (Ok (false, "device disconnected"),
     mk_world (Some (Sample.mk_sim [] [] [] true)) true initial_status
       [EvWrite (encode ("scan" ^^ newline));
        EvPrint "Failed to send command: device disconnected"]).
Proof. reflexivity. Qed.

(** Start-up on a machine without the port: two lines are printed and
    nothing else happens. *)
Example main_no_device :
  @main _ Sample.no_device Sample.runtime default_args initial_world
  = (Ok tt,
     mk_world None false initial_status
       (connect_failure default_args
          (mk_exn SerialException "could not open port /dev/ttyUSB0"))).
Proof.
  apply (@main_connect_failed _ Sample.no_device Sample.runtime
           default_args initial_world).
  reflexivity.
Qed.

(** Start-up on a device that answers [{}]: the first tick sets up the
    timer and the web server is started. *)
Example main_empty_status :
  trace (snd (Sample.boot "{}" initial_world))
  = [EvSerialOpen "/dev/ttyUSB0" 115200 1; EvSleep 2;
     EvPrint "Connected to /dev/ttyUSB0 at 115200 baud";
     EvWrite (encode ("status" ^^ newline)); EvSleep 0.1; EvInWaiting;
     EvRead 2; next_tick; EvAppRun "0.0.0.0" 8080 true].
Proof. vm_compute. reflexivity. Qed.

(* ================================================================= *)
(** ** Opening the link *)

Section Connect.
Context {P : Type} {port_ops : SerialPort P} {rt : Runtime}.

(** X1.  When the port cannot be opened, [connect_serial] returns
    [False] without raising: the flag is cleared, also when it was set,
    the global [serial_port] keeps the value it had, the only events are
    the attempt and one printed line with the port name and the
    exception, and the two-second wait does not happen. *)
Theorem connect_serial_failure (port : string) (baudrate : Z)
        (w : world P) (e : exn) :
  serial_open port baudrate 1 = Raise e ->
  connect_serial port baudrate w
  = (Ok false,
     mk_world (serial_port w) false (device_status w)
       (trace w ++ [EvSerialOpen port baudrate 1;
                    connect_failed_line port e])).
Proof.
  intros Hopen.
  unfold connect_serial, try_except, bind, open_port. rewrite Hopen.
  unfold print, emit, modify, ret, log_event; simpl.
  now rewrite <- app_assoc.
Qed.

(** X2.  When the port opens, [connect_serial] returns [True] with the
    flag set and the global holding the port as a wait of two seconds
    left it; its events are the opening with a read timeout of one
    second, that wait and the printed line with the port name and the
    baud rate, in this order. *)
Theorem connect_serial_success (port : string) (baudrate : Z)
        (w : world P) (p : P) :
  serial_open port baudrate 1 = Ok p ->
  connect_serial port baudrate w
  = (Ok true,
     mk_world (Some (serial_elapse p 2)) true (device_status w)
       (trace w ++ [EvSerialOpen port baudrate 1; EvSleep 2;
                    connected_line port baudrate])).
Proof.
  intros Hopen.
  unfold connect_serial, try_except, bind, open_port. rewrite Hopen.
  unfold sleep, print, emit, modify, ret, log_event; simpl.
  now rewrite <- !app_assoc.
Qed.

(** X3.  [connect_serial] returns in every world and for every port, and
    what it returns is the connection flag it leaves; when that flag is
    set the global holds a port; DeviceStatus is not touched and nothing
    is written to the line. *)
Theorem connect_serial_link (port : string) (baudrate : Z) (w : world P) :
  exists (connected : bool) (w' : world P),
    connect_serial port baudrate w = (Ok connected, w') /\
    serial_connected w' = connected /\
    implb connected (port_open w') = true /\
    device_status w' = device_status w /\
    written (trace w') = written (trace w).
Proof.
  unfold connect_serial, try_except, bind, open_port.
  destruct (serial_open port baudrate 1) as [p | e].
  - exists true. eexists. split; [reflexivity |]. simpl.
    rewrite !written_app, !app_nil_r. auto.
  - exists false. eexists. split; [reflexivity |]. simpl.
    rewrite !written_app, !app_nil_r. auto.
Qed.
End Connect.

(* ================================================================= *)
(** ** What a command leaves alone *)

Section Frame.
Context {P : Type} {port_ops : SerialPort P} {rt : Runtime}.

Lemma exchange_fails_events (p : P) (data : list byte) e evs p' :
  exchange_fails p data e evs p' -> forallb is_exchange_event evs = true.
Proof. intros H; inversion H; reflexivity. Qed.

(** In every world and however it ends, [send_command] returns a pair,
    keeps the status, the flag and the presence of a port, and adds
    events of the exchange only. *)
Lemma send_command_frame (command : value) (w : world P) :
  exists r w' evs,
    send_command command w = (Ok r, w') /\
    device_status w' = device_status w /\
    serial_connected w' = serial_connected w /\
    port_open w' = port_open w /\
    trace w' = trace w ++ evs /\
    forallb is_exchange_event evs = true.
Proof.
  destruct (serial_connected w) eqn:Hconn.
  - destruct (serial_port w) as [p |] eqn:Hport.
    + destruct (str_encode_cases (format_value command ^^ newline))
        as [[Henc _] | [_ [e0 Henc]]].
      * destruct (send_command_connected_run command w p Hconn Hport Henc)
          as [(text & size & p' & _ & Heq) | (e & evs & p' & Hfail & Heq)];
          rewrite Heq; do 3 eexists; (split; [reflexivity |]);
          unfold port_open; rewrite Hport; simpl; repeat split.
        rewrite forallb_app, (exchange_fails_events _ _ _ _ _ Hfail).
        reflexivity.
      * rewrite (send_command_unencodable command w p e0 Hconn Hport Henc).
        do 3 eexists. split; [reflexivity |].
        unfold port_open; rewrite Hport; simpl; repeat split.
    + destruct w as [port conn status tr]; simpl in *; subst.
      unfold send_command, bind, gets, try_except, port_write,
        print, emit, modify, ret; simpl.
      do 3 eexists. repeat split.
  - unfold send_command, bind, gets. rewrite Hconn. simpl. unfold ret.
    exists (false, "Not connected to device"), w, [].
    rewrite app_nil_r. repeat split. exact Hconn.
Qed.

Lemma timer_count_app (t u : list event) :
  timer_count (t ++ u) = timer_count t + timer_count u.
Proof. unfold timer_count. now rewrite filter_app, length_app. Qed.

Lemma exchange_events_no_timer (evs : list event) :
  forallb is_exchange_event evs = true -> timer_count evs = 0.
Proof.
  unfold timer_count.
  induction evs as [| ev evs IH]; simpl; [reflexivity |].
  intros H. apply andb_true_iff in H. destruct H as [Hev Hrest].
  destruct ev; try discriminate Hev; simpl; auto.
Qed.


(** X4.  The handlers of [/api/command] and [/api/mode] never change
    DeviceStatus, the connection flag or the presence of a port, for any
    body and however they end; and they never start a timer. *)
Theorem handlers_frame (body : value) (w : world P) :
  (let w' := snd (api_command body w) in
   device_status w' = device_status w /\
   serial_connected w' = serial_connected w /\
   port_open w' = port_open w /\
   timer_count (trace w') = timer_count (trace w))
  /\
  (let w' := snd (api_mode body w) in
   device_status w' = device_status w /\
   serial_connected w' = serial_connected w /\
   port_open w' = port_open w /\
   timer_count (trace w') = timer_count (trace w)).
Proof.
  split.
  - unfold api_command, bind, request_json_get.
    destruct body; simpl; auto.
    destruct (truthy _); simpl; auto.
    match goal with
    | |- context [send_command ?c w] =>
        destruct (send_command_frame c w)
          as ([s r] & w' & evs & Heq & Hst & Hfl & Hpo & Htr & Hev)
    end.
    rewrite Heq. simpl. repeat split; auto.
    rewrite Htr, timer_count_app, (exchange_events_no_timer _ Hev). lia.
  - unfold api_mode, bind, request_json_get.
    destruct body; simpl; auto.
    destruct (truthy _); simpl; auto.
    match goal with
    | |- context [send_command ?c w] =>
        destruct (send_command_frame c w)
          as ([s r] & w' & evs & Heq & Hst & Hfl & Hpo & Htr & Hev)
    end.
    rewrite Heq. simpl. repeat split; auto.
    rewrite Htr, timer_count_app, (exchange_events_no_timer _ Hev). lia.
Qed.
End Frame.

(* ================================================================= *)
(** ** The handlers past their guard *)

Section Handlers.
Context {P : Type} {port_ops : SerialPort P} {rt : Runtime}.

Lemma send_command_not_connected_run (command : value) (w : world P) :
  serial_connected w = false ->
  send_command command w = (Ok (false, "Not connected to device"), w).
Proof.
  intros Hconn. unfold send_command, bind, gets. now rewrite Hconn.
Qed.

(** A handler whose field is truthy answers with what [send_command]
    returned, in the world it left. *)
Lemma api_command_delegates (d : dict) (v : value) (w : world P) :
  dict_get d (KStr "command") = Some v ->
  truthy v = true ->
  exists success text w',
    send_command v w = (Ok (success, text), w') /\
    api_command (VDict d) w = (Ok (command_response success text), w').
Proof.
  intros Hget Htruthy.
  destruct (send_command_returns v w) as ([success text] & w' & Heq & _).
  exists success, text, w'. split; [exact Heq |].
  unfold api_command, bind, request_json_get, ret.
  rewrite Hget, Htruthy. simpl. now rewrite Heq.
Qed.

Lemma api_mode_delegates (d : dict) (v : value) (w : world P) :
  dict_get d (KStr "mode") = Some v ->
  truthy v = true ->
  exists success text w',
    send_command (VStr ("mode " ^^ format_value v)) w
      = (Ok (success, text), w') /\
    api_mode (VDict d) w = (Ok (command_response success text), w').
Proof.
  intros Hget Htruthy.
  destruct (send_command_returns (VStr ("mode " ^^ format_value v)) w)
    as ([success text] & w' & Heq & _).
  exists success, text, w'. split; [exact Heq |].
  unfold api_mode, bind, request_json_get, ret.
  rewrite Hget, Htruthy. cbn [negb]. now rewrite Heq.
Qed.

(** What [send_command] writes on an open connection: the encoded
    command, once, or nothing when the command cannot be encoded, in
    which case it returns the encoder's exception as a failure. *)
Lemma send_command_forwards (command : value) (w w' : world P) (p : P)
      (success : bool) (text : string) :
  serial_connected w = true ->
  serial_port w = Some p ->
  send_command command w = (Ok (success, text), w') ->
  match str_encode (format_value command ^^ newline) with
  | Ok data => written (trace w') = written (trace w) ++ [data]
  | Raise e =>
      written (trace w') = written (trace w) /\
      success = false /\ text = exn_str e
  end.
Proof.
  intros Hconn Hport Hsend.
  destruct (str_encode_cases (format_value command ^^ newline))
    as [[Henc Hdata] | [_ [e0 Henc]]].
  - rewrite Hdata.
    pose proof (send_command_written command w p Hconn Hport Henc) as Hw.
    now rewrite Hsend in Hw.
  - rewrite Henc.
    rewrite (send_command_unencodable command w p e0 Hconn Hport Henc)
      in Hsend.
    inversion Hsend; subst. simpl. rewrite written_app. simpl.
    now rewrite app_nil_r.
Qed.

(** X5.  A POST to [/api/command] with a truthy [command] on an open
    connection answers 200 with [success] and [response] being the pair
    [send_command] returned, also when the exchange failed.  When the
    command, as an f-string renders it (a string verbatim) and followed
    by a newline, can be encoded, exactly one write is made, of those
    bytes; when it cannot, nothing is written and the answer carries
    [success] false and the text of the encoder's exception. *)
Theorem api_command_forwards (d : dict) (v : value) (w : world P) (p : P) :
  dict_get d (KStr "command") = Some v ->
  truthy v = true ->
  serial_connected w = true ->
  serial_port w = Some p ->
  exists success text w',
    send_command v w = (Ok (success, text), w') /\
    api_command (VDict d) w = (Ok (command_response success text), w') /\
    match str_encode (format_value v ^^ newline) with
    | Ok data => written (trace w') = written (trace w) ++ [data]
    | Raise e =>
        written (trace w') = written (trace w) /\
        success = false /\ text = exn_str e
    end.
Proof.
  intros Hget Htruthy Hconn Hport.
  destruct (api_command_delegates d v w Hget Htruthy)
    as (success & text & w' & Hsend & Hapi).
  exists success, text, w'. split; [exact Hsend |]. split; [exact Hapi |].
  exact (send_command_forwards v w w' p success text Hconn Hport Hsend).
Qed.

(** X6.  A POST to [/api/mode] with a truthy [mode] on an open connection
    answers 200 with the pair [send_command] returned for the text
    [mode ] followed by the value.  When that text and a newline can be
    encoded, exactly one write is made, of those bytes; when they
    cannot, nothing is written and the answer carries [success] false
    and the text of the encoder's exception. *)
Theorem api_mode_forwards (d : dict) (v : value) (w : world P) (p : P) :
  dict_get d (KStr "mode") = Some v ->
  truthy v = true ->
  serial_connected w = true ->
  serial_port w = Some p ->
  exists success text w',
    send_command (VStr ("mode " ^^ format_value v)) w
      = (Ok (success, text), w') /\
    api_mode (VDict d) w = (Ok (command_response success text), w') /\
    match str_encode (("mode " ^^ format_value v) ^^ newline) with
    | Ok data => written (trace w') = written (trace w) ++ [data]
    | Raise e =>
        written (trace w') = written (trace w) /\
        success = false /\ text = exn_str e
    end.
Proof.
  intros Hget Htruthy Hconn Hport.
  destruct (api_mode_delegates d v w Hget Htruthy)
    as (success & text & w' & Hsend & Hapi).
  exists success, text, w'. split; [exact Hsend |]. split; [exact Hapi |].
  exact (send_command_forwards _ w w' p success text Hconn Hport Hsend).
Qed.

(** X7.  While the connection flag is not set, a well-formed POST to
    [/api/command] or [/api/mode] is answered with status 200, not with
    an error status: the body has [success] false and the response text
    "Not connected to device", and the world is left as it was. *)
Theorem handlers_not_connected (d : dict) (v : value) (w : world P) :
  serial_connected w = false ->
  truthy v = true ->
  (dict_get d (KStr "command") = Some v ->
   api_command (VDict d) w
   = (Ok (command_response false "Not connected to device"), w))
  /\
  (dict_get d (KStr "mode") = Some v ->
   api_mode (VDict d) w
   = (Ok (command_response false "Not connected to device"), w)).
Proof.
  intros Hconn Htruthy. split; intros Hget.
  - destruct (api_command_delegates d v w Hget Htruthy)
      as (success & text & w' & Hsend & Hapi).
    rewrite (send_command_not_connected_run v w Hconn) in Hsend.
    inversion Hsend; subst. exact Hapi.
  - destruct (api_mode_delegates d v w Hget Htruthy)
      as (success & text & w' & Hsend & Hapi).
    rewrite (send_command_not_connected_run _ w Hconn) in Hsend.
    inversion Hsend; subst. exact Hapi.
Qed.

(** X8.  A POST to [/api/command] or [/api/mode] whose JSON body is not
    an object (an array, a string, a number, a boolean or null) makes
    the handler raise [AttributeError] at [request.json.get], before
    anything else happens: the world is left as it was. *)
Theorem handlers_reject_non_object (body : value) (w : world P) :
  is_object body = false ->
  api_command body w = (Raise (no_get body), w) /\
  api_mode body w = (Raise (no_get body), w).
Proof.
  intros H. destruct body; try discriminate H; split; reflexivity.
Qed.
End Handlers.

(* ================================================================= *)
(** ** The tick, in every world *)

Section Tick.
Context {P : Type} {port_ops : SerialPort P} {rt : Runtime}.

(** What a tick adds to the state its status request left: nothing to
    the port or the flag; to the trace the timer, with the parse failure
    before it if there was one, when the tick returns, and nothing when it
    raises. *)
Lemma update_status_shape (w : world P) :
  let asked := snd (send_command (VStr "status") w) in
  let w' := snd (update_status w) in
  serial_connected w' = serial_connected asked /\
  serial_port w' = serial_port asked /\
  match fst (update_status w) with
  | Ok _ =>
      trace w' = trace asked ++ [next_tick] \/
      exists text, trace w' = trace asked ++ [parse_failure text; next_tick]
  | Raise _ => trace w' = trace asked
  end.
Proof.
  destruct (send_command_returns (VStr "status") w)
    as ([success text] & w1 & Hsend & _).
  simpl. rewrite Hsend. simpl.
  destruct success.
  - destruct (json_loads text) as [v | e] eqn:Hjson.
    + rewrite (update_status_parsed _ _ _ _ Hsend Hjson).
      destruct (dict_update (device_status w) v) as [d [e |]]; simpl.
      * destruct (isinstance e JSONDecodeError); simpl; repeat split; auto.
        right. exists text. now rewrite <- app_assoc.
      * repeat split; auto.
    + rewrite (update_status_parse_error _ _ _ _ Hsend Hjson).
      destruct (isinstance e JSONDecodeError); simpl; repeat split; auto.
      right. exists text. now rewrite <- app_assoc.
  - rewrite (update_status_send_failed _ _ _ Hsend). simpl.
    repeat split; auto.
Qed.

(** X9.  A tick while the connection flag is not set does no transport
    I/O and prints nothing: it returns, and the only thing it has done is
    to start the timer of the next tick; DeviceStatus is as before. *)
Theorem update_status_not_connected (w : world P) :
  serial_connected w = false ->
  update_status w = (Ok tt, log_event next_tick w).
Proof.
  intros Hconn. apply (update_status_send_failed w w "Not connected to device").
  unfold send_command, bind, gets. now rewrite Hconn.
Qed.

(** The exchange that fails, as [send_command] runs it. *)
Lemma send_command_exchange_fails (command : value) (w : world P) (p : P)
      e evs p' :
  serial_connected w = true ->
  serial_port w = Some p ->
  encodable (format_value command ^^ newline) = true ->
  exchange_fails p (encode (format_value command ^^ newline)) e evs p' ->
  send_command command w
  = (Ok (false, exn_str e),
     mk_world (Some p') true (device_status w)
       (trace w ++ evs ++ [send_failed_line e])).
Proof.
  intros Hconn Hport Henc Hfail.
  destruct (send_command_connected_run command w p Hconn Hport Henc)
    as [(text & size & p2 & Hok & Heq) | (e2 & evs2 & p2 & Hfail2 & Heq)];
    rewrite Heq.
  - exfalso. inversion Hok; inversion Hfail; subst; congruence.
  - assert (e2 = e /\ evs2 = evs /\ p2 = p') as (-> & -> & ->)
      by (inversion Hfail; inversion Hfail2; subst;
          repeat split; congruence).
    reflexivity.
Qed.

(** X10.  A tick whose status request fails on the line (the write, the
    count or the read raises, or the bytes do not decode) still returns
    and starts the timer of the next tick: the failure is printed,
    DeviceStatus, the flag and the handle stay, and no reconnection is
    attempted. *)
Theorem update_status_link_failure (w : world P) (p : P) e evs p' :
  serial_connected w = true ->
  serial_port w = Some p ->
  exchange_fails p (encode ("status" ^^ newline)) e evs p' ->
  update_status w
  = (Ok tt,
     mk_world (Some p') true (device_status w)
       (trace w ++ evs ++ [send_failed_line e; next_tick])).
Proof.
  intros Hconn Hport Hfail.
  rewrite (update_status_send_failed _ _ _
             (send_command_exchange_fails (VStr "status") w p e evs p'
                Hconn Hport eq_refl Hfail)).
  unfold log_event; simpl. now rewrite <- !app_assoc.
Qed.

(** X11.  On an open connection every tick, however it ends, makes
    exactly one write, and it is the text [status] followed by a
    newline. *)
Theorem update_status_one_request (w : world P) (p : P) :
  serial_connected w = true ->
  serial_port w = Some p ->
  written (trace (snd (update_status w)))
  = written (trace w) ++ [encode ("status" ^^ newline)].
Proof.
  intros Hconn Hport.
  rewrite <- (send_command_written (VStr "status") w p Hconn Hport
                eq_refl).
  destruct (update_status_shape w) as (_ & _ & Htrace).
  destruct (fst (update_status w)).
  - destruct Htrace as [Heq | [text Heq]]; rewrite Heq, written_app;
      simpl; now rewrite app_nil_r.
  - now rewrite Htrace.
Qed.

(** X12.  A tick changes neither the connection flag nor the presence of
    a port, in any world and however it ends: a failure on the line
    never marks the link as disconnected. *)
Theorem update_status_keeps_link (w : world P) :
  let w' := snd (update_status w) in
  serial_connected w' = serial_connected w /\
  port_open w' = port_open w.
Proof.
  destruct (update_status_shape w) as (Hflag & Hport & _).
  destruct (send_command_frame (VStr "status") w)
    as (r & w1 & evs & Heq & _ & Hfl & Hpo & _).
  simpl. rewrite Hflag. unfold port_open at 1. rewrite Hport.
  rewrite Heq. simpl. split; [exact Hfl | exact Hpo].
Qed.
End Tick.

(* ================================================================= *)
(** ** Reading the status after a poll *)

Section Reading.
Context {P : Type} {port_ops : SerialPort P} {rt : Runtime}.

(** A key that is equal to a string key is that string key. *)
Lemma key_eqb_str_l (k : key) (s : string) :
  key_eqb (KStr s) k = true -> k = KStr s.
Proof.
  destruct k; simpl; try discriminate.
  intros H. apply String.eqb_eq in H. now subst.
Qed.

Lemma dict_get_setitem_field (d : dict) (k : key) (v : value) (t : string) :
  dict_get (dict_setitem d k v) (KStr t) =
  if key_eqb k (KStr t) then Some v else dict_get d (KStr t).
Proof.
  induction d as [| [k' v'] rest IH]; simpl.
  - now destruct (key_eqb k (KStr t)).
  - destruct (key_eqb k' k) eqn:Hk; simpl.
    + destruct (key_eqb k' (KStr t)) eqn:Ht.
      * apply key_eqb_str in Ht. subst k'.
        apply key_eqb_str_l in Hk. subst k. simpl.
        now rewrite String.eqb_refl.
      * destruct (key_eqb k (KStr t)) eqn:Hkt; [| reflexivity].
        apply key_eqb_str in Hkt. subst k.
        apply key_eqb_str in Hk. subst k'. simpl in Ht.
        now rewrite String.eqb_refl in Ht.
    + destruct (key_eqb k' (KStr t)) eqn:Ht; [| exact IH].
      apply key_eqb_str in Ht. subst k'.
      destruct (key_eqb k (KStr t)) eqn:Hkt; [| reflexivity].
      apply key_eqb_str in Hkt. subst k. simpl in Hk.
      now rewrite String.eqb_refl in Hk.
Qed.

Lemma dict_get_app (a b : dict) (k : key) :
  dict_get (a ++ b) k =
  match dict_get a k with Some v => Some v | None => dict_get b k end.
Proof.
  induction a as [| [k' v'] a IH]; simpl; [reflexivity |].
  now destruct (key_eqb k' k).
Qed.

(** After a merge a field reads as the last field of that name in the
    merged dictionary, and as before when there is none. *)
Lemma dict_get_merge_field (o d : dict) (t : string) :
  dict_get (dict_merge d o) (KStr t) =
  match last_field o t with
  | Some v => Some v
  | None => dict_get d (KStr t)
  end.
Proof.
  unfold dict_merge, last_field. revert d.
  induction o as [| [k v] o IH]; intros d; simpl; [reflexivity |].
  rewrite IH, dict_get_app, dict_get_setitem_field. simpl.
  destruct (dict_get (rev o) (KStr t)); [reflexivity |].
  now destruct (key_eqb k (KStr t)).
Qed.

(** X13.  After a poll whose reply parses as a JSON object, every field
    of DeviceStatus reads as the reply gives it (the last occurrence, if
    the name occurs more than once) when the reply has a field of that
    name, and as it read before the poll when the reply has none. *)
Theorem poll_fields (w w1 : world P) (response : string) (o : dict)
        (field : string) :
  send_command (VStr "status") w = (Ok (true, response), w1) ->
  json_loads response = Ok (VDict o) ->
  dict_get (device_status (snd (update_status w))) (KStr field) =
  match last_field o field with
  | Some v => Some v
  | None => dict_get (device_status w) (KStr field)
  end.
Proof.
  intros Hsend Hjson.
  rewrite (update_status_parsed _ _ _ _ Hsend Hjson). simpl.
  apply dict_get_merge_field.
Qed.

(** X14.  An exception of [json.loads] that is not a [JSONDecodeError]
    (such as the [RecursionError] of a deeply nested reply) is not caught
    by the tick: the tick ends with it, DeviceStatus is as before, no
    parse failure is printed and the timer of the next tick is not
    started. *)
Theorem poll_other_error (w w1 : world P) (response : string) (e : exn) :
  send_command (VStr "status") w = (Ok (true, response), w1) ->
  json_loads response = Raise e ->
  isinstance e JSONDecodeError = false ->
  update_status w = (Raise e, w1) /\
  device_status w1 = device_status w /\
  timer_count (trace w1) = timer_count (trace w).
Proof.
  intros Hsend Hjson Hcls.
  rewrite (update_status_parse_error _ _ _ _ Hsend Hjson), Hcls.
  split; [reflexivity |].
  destruct (send_command_frame (VStr "status") w)
    as (r & w' & evs & Heq & Hst & _ & _ & Htr & Hev).
  rewrite Hsend in Heq. inversion Heq; subst.
  split; [exact Hst |].
  rewrite Htr, timer_count_app, (exchange_events_no_timer _ Hev). lia.
Qed.





End Reading.

(* ================================================================= *)
(** ** Timers and start-up *)

Section Timers.
Context {P : Type} {port_ops : SerialPort P} {rt : Runtime}.

(** A tick that returns has started one timer, a tick that raises
    none. *)
Lemma update_status_timers (w : world P) :
  timer_count (trace (snd (update_status w))) =
  timer_count (trace w)
  + match fst (update_status w) with Ok _ => 1 | Raise _ => 0 end.
Proof.
  destruct (update_status_shape w) as (_ & _ & Htrace).
  destruct (send_command_frame (VStr "status") w)
    as (r & w1 & evs & Heq & _ & _ & _ & Htr & Hev).
  rewrite Heq in Htrace. simpl in Htrace. rewrite Htr in Htrace.
  pose proof (exchange_events_no_timer _ Hev) as Hnone.
  destruct (fst (update_status w)).
  - destruct Htrace as [H | [text H]]; rewrite H, !timer_count_app, Hnone;
      unfold timer_count; simpl; lia.
  - rewrite Htrace, timer_count_app, Hnone. lia.
Qed.

Lemma poller_timers (n : nat) (w w' : world P) :
  poller n w = (Ok tt, w') ->
  timer_count (trace w') = timer_count (trace w) + n.
Proof.
  revert w. induction n as [| n IH]; intros w; simpl.
  - unfold ret. intros H. inversion H. lia.
  - unfold bind at 1.
    pose proof (update_status_timers w) as Hone.
    destruct (update_status w) as [[[] | e] w1]; [| discriminate].
    simpl in Hone. unfold bind, timer_delay, modify. simpl.
    intros H. apply IH in H. simpl in H. lia.
Qed.

(** X16.  Ticks do not pile up.  In every world a tick that returns has
    started exactly one timer and a tick that raises has started none;
    so when [n] ticks in a row have returned, exactly [n] timers have
    been started. *)
Theorem ticks_start_one_timer (w : world P) :
  (timer_count (trace (snd (update_status w)))
   = timer_count (trace w)
     + match fst (update_status w) with Ok _ => 1 | Raise _ => 0 end)
  /\
  (forall n w', poller n w = (Ok tt, w') ->
                timer_count (trace w') = timer_count (trace w) + n).
Proof.
  split; [apply update_status_timers | intros n w'; apply poller_timers].
Qed.

(** X17.  When the port cannot be opened, [main] returns normally after
    printing the two failure lines: the flag is not set, DeviceStatus is
    untouched, nothing is written to the line, no timer is started and
    the web server is not run. *)
Theorem main_without_port (args : cli_args) (w : world P) (e : exn) :
  serial_open (arg_port args) (arg_baud args) 1 = Raise e ->
  exists w',
    main args w = (Ok tt, w') /\
    serial_connected w' = false /\
    device_status w' = device_status w /\
    trace w' = trace w ++ connect_failure args e /\
    written (trace w') = written (trace w) /\
    timer_count (trace w') = timer_count (trace w) /\
    existsb is_app_run (connect_failure args e) = false.
Proof.
  intros Hopen. rewrite (main_connect_failed args w e Hopen).
  eexists. split; [reflexivity |]. simpl.
  rewrite written_app, timer_count_app, app_nil_r.
  repeat split. unfold timer_count; simpl; lia.
Qed.

(** X18.  When the port opens and [main] returns, the last two things it
    did are to start the timer of the second tick and then to run the
    web server, on the host and port of the command line and with
    [debug=True]: the server is started after the first poll, and only
    if that poll returned. *)
Theorem main_serves_after_first_poll (args : cli_args) (w w' : world P)
        (p : P) :
  serial_open (arg_port args) (arg_baud args) 1 = Ok p ->
  main args w = (Ok tt, w') ->
  exists t,
    trace w' = t ++ [next_tick;
                     EvAppRun (arg_host args) (arg_port_web args) true].
Proof.
  intros Hopen Hmain.
  rewrite (main_connected args w p Hopen) in Hmain.
  match type of Hmain with
  | context [update_status ?x] =>
      destruct (update_status x) as [[[] | e] w1] eqn:Htick
  end; [| discriminate].
  destruct (update_status_returns_rescheduled _ _ Htick) as (t & Ht).
  inversion Hmain; subst. exists t. simpl.
  rewrite Ht. now rewrite <- app_assoc.
Qed.
End Timers.

(* ================================================================= *)
(** ** Further runs on the simulated device *)

(** X1 at a concrete input: a machine without the port. *)
Lemma connect_serial_failure_witness :
  @serial_open _ Sample.no_device "/dev/ttyUSB0" 115200 1
  = Raise (mk_exn SerialException "could not open port /dev/ttyUSB0") /\
  fst (@connect_serial _ Sample.no_device "/dev/ttyUSB0"
         115200 initial_world)
  = Ok false.
Proof.
  split; [reflexivity |].
  rewrite (@connect_serial_failure _ Sample.no_device
             "/dev/ttyUSB0" 115200 initial_world _ eq_refl).
  reflexivity.
Defined.

(** X2 at a concrete input: the simulated device. *)
Lemma connect_serial_success_witness :
  @serial_open _ (Sample.device "OK") "/dev/ttyUSB0" 115200 1
  = Ok Sample.idle_port /\
  fst (@connect_serial _ (Sample.device "OK") "/dev/ttyUSB0"
         115200 initial_world)
  = Ok true.
Proof.
  split; [reflexivity |].
  rewrite (@connect_serial_success _ (Sample.device "OK")
             "/dev/ttyUSB0" 115200 initial_world _ eq_refl).
  reflexivity.
Defined.

(** X5 at a concrete input: the command [scan]. *)
Lemma api_command_forwards_witness :
  dict_get Sample.scan_command (KStr "command") = Some (VStr "scan") /\
  truthy (VStr "scan") = true /\
  serial_connected Sample.fresh = true /\
  serial_port Sample.fresh = Some Sample.idle_port /\
  exists success text w',
    @api_command _ (Sample.device "OK") Sample.runtime
      (VDict Sample.scan_command) Sample.fresh
    = (Ok (command_response success text), w') /\
    written (trace w') = [encode ("scan" ^^ newline)].
Proof.
  do 4 (split; [reflexivity |]).
  destruct (@api_command_forwards _ (Sample.device "OK") Sample.runtime
              Sample.scan_command (VStr "scan") Sample.fresh
              Sample.idle_port eq_refl eq_refl eq_refl eq_refl)
    as (success & text & w' & _ & Hapi & Hwritten).
  exists success, text, w'. split; [exact Hapi | exact Hwritten].
Defined.

(** X6 at a concrete input: the mode [sniff]. *)
Lemma api_mode_forwards_witness :
  dict_get [(KStr "mode", VStr "sniff")] (KStr "mode") = Some (VStr "sniff") /\
  truthy (VStr "sniff") = true /\
  serial_connected Sample.fresh = true /\
  serial_port Sample.fresh = Some Sample.idle_port /\
  exists success text w',
    @api_mode _ (Sample.device "OK") Sample.runtime
      (VDict [(KStr "mode", VStr "sniff")]) Sample.fresh
    = (Ok (command_response success text), w') /\
    written (trace w') = [encode ("mode sniff" ^^ newline)].
Proof.
  do 4 (split; [reflexivity |]).
  destruct (@api_mode_forwards _ (Sample.device "OK") Sample.runtime
              [(KStr "mode", VStr "sniff")] (VStr "sniff") Sample.fresh
              Sample.idle_port eq_refl eq_refl eq_refl eq_refl)
    as (success & text & w' & _ & Hapi & Hwritten).
  exists success, text, w'. split; [exact Hapi | exact Hwritten].
Defined.

(** X7 at a concrete input: the command [scan] before any connection. *)
Lemma handlers_not_connected_witness :
  serial_connected (@initial_world Sample.sim_port) = false /\
  truthy (VStr "scan") = true /\
  @api_command _ (Sample.device "OK") Sample.runtime
    (VDict Sample.scan_command) initial_world
  = (Ok (command_response false "Not connected to device"), initial_world).
Proof.
  do 2 (split; [reflexivity |]).
  apply (proj1 (@handlers_not_connected _ (Sample.device "OK")
                  Sample.runtime Sample.scan_command (VStr "scan")
                  initial_world eq_refl eq_refl)).
  reflexivity.
Defined.

(** X8 at a concrete input: the body [[]]. *)
Lemma handlers_reject_non_object_witness :
  is_object (VList []) = false /\
  @api_command _ (Sample.device "OK") Sample.runtime (VList []) Sample.fresh
  = (Raise (mk_exn AttributeError "'list' object has no attribute 'get'"),
     Sample.fresh).
Proof.
  split; [reflexivity |].
  exact (proj1 (@handlers_reject_non_object _ (Sample.device "OK")
                  Sample.runtime (VList []) Sample.fresh eq_refl)).
Defined.

(** X9 at a concrete input: a tick before any connection. *)
Lemma update_status_not_connected_witness :
  serial_connected (@initial_world Sample.sim_port) = false /\
  @update_status _ (Sample.device "OK") Sample.runtime initial_world
  = (Ok tt, mk_world None false initial_status [next_tick]).
Proof.
  split; [reflexivity |].
  exact (@update_status_not_connected _ (Sample.device "OK") Sample.runtime
           initial_world eq_refl).
Defined.

(** X10 at a concrete input: a tick after the adapter has been pulled
    out. *)
Lemma update_status_link_failure_witness :
  @exchange_fails _ (Sample.device "OK") Sample.runtime
    (Sample.mk_sim [] [] [] true) (encode ("status" ^^ newline))
    Sample.io_error [EvWrite (encode ("status" ^^ newline))]
    (Sample.mk_sim [] [] [] true) /\
  @update_status _ (Sample.device "OK") Sample.runtime
    (Sample.unplugged_world initial_status)
  = (Ok tt,
     mk_world (Some (Sample.mk_sim [] [] [] true)) true initial_status
       [EvWrite (encode ("status" ^^ newline));
        send_failed_line Sample.io_error; next_tick]).
Proof.
  assert (Hfail :
    @exchange_fails _ (Sample.device "OK") Sample.runtime
      (Sample.mk_sim [] [] [] true) (encode ("status" ^^ newline))
      Sample.io_error [EvWrite (encode ("status" ^^ newline))]
      (Sample.mk_sim [] [] [] true))
    by (apply WriteFails; reflexivity).
  split; [exact Hfail |].
  exact (@update_status_link_failure _ (Sample.device "OK") Sample.runtime
           (Sample.unplugged_world initial_status) _ _ _ _
           eq_refl eq_refl Hfail).
Defined.

(** X11 at a concrete input: a tick right after start-up. *)
Lemma update_status_one_request_witness :
  serial_connected Sample.fresh = true /\
  serial_port Sample.fresh = Some Sample.idle_port /\
  written (trace (snd (Sample.tick "OK" Sample.fresh)))
  = [encode ("status" ^^ newline)].
Proof.
  do 2 (split; [reflexivity |]).
  exact (@update_status_one_request _ (Sample.device "OK") Sample.runtime
           Sample.fresh Sample.idle_port eq_refl eq_refl).
Defined.

(** X13 at a concrete input: the reply of the example, read at [mode]
    and at [last_update]. *)
Lemma poll_fields_witness :
  @send_command _ (Sample.device Sample.sniff_text) Sample.runtime
    (VStr "status") Sample.fresh
    = (Ok (true, Sample.sniff_text), Sample.asked Sample.sniff_text) /\
  Json.loads Sample.sniff_text = Ok sniff_status /\
  dict_get (device_status (snd (Sample.tick Sample.sniff_text Sample.fresh)))
    (KStr "mode") = Some (VStr "sniff") /\
  dict_get (device_status (snd (Sample.tick Sample.sniff_text Sample.fresh)))
    (KStr "last_update") = Some (VInt 0).
Proof.
  assert (Hsend : @send_command _ (Sample.device Sample.sniff_text)
                    Sample.runtime (VStr "status") Sample.fresh
                  = (Ok (true, Sample.sniff_text),
                     Sample.asked Sample.sniff_text))
    by (vm_compute; reflexivity).
  assert (Hjson : Json.loads Sample.sniff_text = Ok sniff_status)
    by (vm_compute; reflexivity).
  split; [exact Hsend |]. split; [exact Hjson |]. split.
  - exact (@poll_fields _ (Sample.device Sample.sniff_text) Sample.runtime
             Sample.fresh _ _ _ "mode" Hsend Hjson).
  - exact (@poll_fields _ (Sample.device Sample.sniff_text) Sample.runtime
             Sample.fresh _ _ _ "last_update" Hsend Hjson).
Defined.

(** X14 at a concrete input: a reply of brackets, read by a runtime that
    runs out of stack. *)
Lemma poll_other_error_witness :
  @send_command _ (Sample.device "[[[[") Sample.shallow_runtime
    (VStr "status") Sample.fresh
  = (Ok (true, "[[[["),
     snd (@send_command _ (Sample.device "[[[[") Sample.shallow_runtime
            (VStr "status") Sample.fresh)) /\
  isinstance Sample.recursion_error JSONDecodeError = false /\
  fst (@update_status _ (Sample.device "[[[[") Sample.shallow_runtime
         Sample.fresh)
  = Raise Sample.recursion_error.
Proof.
  assert (Hsend :
    @send_command _ (Sample.device "[[[[") Sample.shallow_runtime
      (VStr "status") Sample.fresh
    = (Ok (true, "[[[["),
       snd (@send_command _ (Sample.device "[[[[") Sample.shallow_runtime
              (VStr "status") Sample.fresh)))
    by (vm_compute; reflexivity).
  split; [exact Hsend |]. split; [reflexivity |].
  destruct (@poll_other_error _ (Sample.device "[[[[") Sample.shallow_runtime
              Sample.fresh _ "[[[[" Sample.recursion_error
              Hsend eq_refl eq_refl) as (Heq & _).
  now rewrite Heq.
Defined.


(** X16 at a concrete input: two ticks against a device that answers
    [{}]. *)
Lemma ticks_start_one_timer_witness :
  @poller _ (Sample.device "{}") Sample.runtime 2 Sample.fresh
  = (Ok tt,
     snd (@poller _ (Sample.device "{}") Sample.runtime 2 Sample.fresh)) /\
  timer_count
    (trace (snd (@poller _ (Sample.device "{}") Sample.runtime 2
                   Sample.fresh)))
  = 2.
Proof.
  assert (Hrun :
    @poller _ (Sample.device "{}") Sample.runtime 2 Sample.fresh
    = (Ok tt,
       snd (@poller _ (Sample.device "{}") Sample.runtime 2 Sample.fresh)))
    by (vm_compute; reflexivity).
  split; [exact Hrun |].
  exact (proj2 (@ticks_start_one_timer _ (Sample.device "{}") Sample.runtime
                  Sample.fresh) 2 _ Hrun).
Defined.

(** X17 at a concrete input: a machine without the port. *)
Lemma main_without_port_witness :
  @serial_open _ Sample.no_device "/dev/ttyUSB0" 115200 1
  = Raise (mk_exn SerialException "could not open port /dev/ttyUSB0") /\
  exists w',
    @main _ Sample.no_device Sample.runtime default_args initial_world
    = (Ok tt, w') /\
    serial_connected w' = false.
Proof.
  split; [reflexivity |].
  destruct (@main_without_port _ Sample.no_device Sample.runtime
              default_args initial_world _ eq_refl)
    as (w' & Hmain & Hflag & _).
  exists w'. split; [exact Hmain | exact Hflag].
Defined.

(** X18 at a concrete input: start-up on a device that answers [{}]. *)
Lemma main_serves_after_first_poll_witness :
  @serial_open _ (Sample.device "{}") "/dev/ttyUSB0" 115200 1
  = Ok Sample.idle_port /\
  Sample.boot "{}" initial_world
  = (Ok tt, snd (Sample.boot "{}" initial_world)) /\
  exists t,
    trace (snd (Sample.boot "{}" initial_world))
    = t ++ [next_tick; EvAppRun "0.0.0.0" 8080 true].
Proof.
  assert (Hrun : Sample.boot "{}" initial_world
                 = (Ok tt, snd (Sample.boot "{}" initial_world)))
    by (vm_compute; reflexivity).
  split; [reflexivity |]. split; [exact Hrun |].
  exact (@main_serves_after_first_poll _ (Sample.device "{}") Sample.runtime
           default_args initial_world _ Sample.idle_port eq_refl Hrun).
Defined.

(* ================================================================= *)
(** ** Replies that [dict.update] refuses, and start-up after them *)

Section Refused.
Context {P : Type} {port_ops : SerialPort P} {rt : Runtime}.

(** The exceptions of [dict.update] are [TypeError]s and [ValueError]s,
    never [JSONDecodeError]s. *)
Lemma merge_from_seq2_error (items : list value) (d : dict) (i : nat)
      d' e :
  merge_from_seq2 d i items = (d', Some e) ->
  isinstance e JSONDecodeError = false.
Proof.
  revert d i. induction items as [| item rest IH]; intros d i; simpl.
  - discriminate.
  - destruct (as_sequence item) as [[| k [| v [| x l]]] |];
      try (intros H; inversion H; reflexivity).
    destruct (as_key k) as [k' |].
    + apply IH.
    + intros H; inversion H; reflexivity.
Qed.

Lemma dict_update_error (d : dict) (v : value) d' e :
  dict_update d v = (d', Some e) ->
  isinstance e JSONDecodeError = false.
Proof.
  destruct v; simpl; try (intros H; inversion H; reflexivity);
    apply merge_from_seq2_error.
Qed.

(** X19.  After a reply that parses, DeviceStatus holds what
    [dict.update] left of it, and the tick returns exactly when
    [dict.update] accepted the parsed value: when it refused it, the tick
    ends with its exception, and what it had merged before the faulty
    element stays merged. *)
Theorem poll_refused_reply (w w1 : world P) (response : string)
        (v : value) (d : dict) (err : option exn) :
  send_command (VStr "status") w = (Ok (true, response), w1) ->
  json_loads response = Ok v ->
  dict_update (device_status w) v = (d, err) ->
  device_status (snd (update_status w)) = d /\
  fst (update_status w)
  = match err with None => Ok tt | Some e => Raise e end.
Proof.
  intros Hsend Hjson Hupdate.
  rewrite (update_status_parsed _ _ _ _ Hsend Hjson), Hupdate.
  destruct err as [e |]; [| split; reflexivity].
  rewrite (dict_update_error _ _ _ _ Hupdate). split; reflexivity.
Qed.

End Refused.

(** X19 at a concrete input: a reply whose first element is a pair and
    whose second is a number. *)
Lemma poll_refused_reply_witness :
  @send_command _ (Sample.device Sample.half_text) Sample.runtime
    (VStr "status") Sample.fresh
    = (Ok (true, Sample.half_text), Sample.asked Sample.half_text) /\
  Json.loads Sample.half_text
    = Ok (VList [VList [VStr "mode"; VStr "x"]; VInt 5]) /\
  dict_get (device_status (snd (Sample.tick Sample.half_text Sample.fresh)))
    (KStr "mode") = Some (VStr "x") /\
  fst (Sample.tick Sample.half_text Sample.fresh)
  = Raise (mk_exn TypeError
      "cannot convert dictionary update sequence element #1 to a sequence").
Proof.
  assert (Hsend : @send_command _ (Sample.device Sample.half_text)
                    Sample.runtime (VStr "status") Sample.fresh
                  = (Ok (true, Sample.half_text),
                     Sample.asked Sample.half_text))
    by (vm_compute; reflexivity).
  assert (Hjson : Json.loads Sample.half_text
                  = Ok (VList [VList [VStr "mode"; VStr "x"]; VInt 5]))
    by (vm_compute; reflexivity).
  split; [exact Hsend |]. split; [exact Hjson |].
  destruct (@poll_refused_reply _ (Sample.device Sample.half_text)
              Sample.runtime Sample.fresh _ _ _ _ _ Hsend Hjson eq_refl)
    as (Hstatus & Hresult).
  unfold Sample.tick. rewrite Hstatus, Hresult. split; reflexivity.
Defined.


(** C4 at the failing input.  The device answers the status request with
    two thousand opening brackets, which is not JSON.  A reader that can
    enter a thousand containers raises [RecursionError] on it, not
    [JSONDecodeError]: the tick ends with that exception, having printed
    no parse failure and started no timer, and no later tick runs.
    DeviceStatus is as before. *)
Theorem poll_deep_reply_ends_poller :
  Json.loads Sample.deep_text = Raise (Json.decode_error "Expecting value") /\
  exists w',
    @update_status _ (Sample.device Sample.deep_text) Sample.limited_runtime
      Sample.fresh
    = (Raise (Json.too_deep "array"), w') /\
    device_status w' = device_status Sample.fresh /\
    trace w' = [EvWrite (encode ("status" ^^ newline)); EvSleep 0.1;
                EvInWaiting; EvRead 2000] /\
    forall n,
      @poller _ (Sample.device Sample.deep_text) Sample.limited_runtime
        (S n) Sample.fresh
      = (Raise (Json.too_deep "array"), w').
Proof.
  split; [vm_compute; reflexivity |].
  assert (Hsend :
    @send_command _ (Sample.device Sample.deep_text) Sample.limited_runtime
      (VStr "status") Sample.fresh
    = (Ok (true, Sample.deep_text),
       snd (@send_command _ (Sample.device Sample.deep_text)
              Sample.limited_runtime (VStr "status") Sample.fresh)))
    by (vm_compute; reflexivity).
  assert (Hjson :
    @json_loads Sample.limited_runtime Sample.deep_text
    = Raise (Json.too_deep "array"))
    by (vm_compute; reflexivity).
  pose proof (@update_status_parse_error _ (Sample.device Sample.deep_text)
                Sample.limited_runtime _ _ _ _ Hsend Hjson) as Htick.
  change (isinstance (Json.too_deep "array") JSONDecodeError) with false
    in Htick.
  eexists. split; [exact Htick |].
  split; [vm_compute; reflexivity |].
  split; [vm_compute; reflexivity |].
  intros n. apply poller_stops. exact Htick.
Qed.

(** C8 as first stated fails.  The request body
    [{"command":"\ud800"}] is JSON, and its command is a text of one
    surrogate, which UTF-8 cannot encode.  Sent on an open connection
    to a device on which every step of an exchange would succeed,
    [send_command] returns [False] with the text of the encoder's
    exception: nothing has been written, so the exchange was not made,
    and no step on the transport has failed. *)
Lemma send_command_encode_failure :
  Json.loads Sample.surrogate_body
  = Ok (VDict [(KStr "command", VStr Sample.lone_surrogate)]) /\
  serial_connected Sample.fresh = true /\
  serial_port Sample.fresh = Some Sample.idle_port /\
  @exchange_ok _ (Sample.device "OK") Sample.runtime Sample.idle_port
    (encode (Sample.lone_surrogate ^^ newline)) "OK" 2
    (Sample.mk_sim [] [] (encode (Sample.lone_surrogate ^^ newline)) false) /\
  @send_command _ (Sample.device "OK") Sample.runtime
    (VStr Sample.lone_surrogate) Sample.fresh
  = (Ok (false,
         "'utf-8' codec can't encode character '\ud800' in position 0: surrogates not allowed"),
     mk_world (Some Sample.idle_port) true initial_status
       [EvPrint "Failed to send command: 'utf-8' codec can't encode character '\ud800' in position 0: surrogates not allowed"]).
Proof.
  split; [vm_compute; reflexivity |].
  split; [reflexivity |]. split; [reflexivity |].
  split; [| vm_compute; reflexivity].
  eapply ExchangeOk; reflexivity.
Qed.
